(** * dbt_lint/check_dbt_documentation.py: documentation coverage check

    A shallow embedding of the script and the properties of its three
    stages: path discovery ([find_model_paths], [create_path_filters]),
    coverage acquisition ([run_dbt_coverage]) and coverage analysis
    ([analyze_coverage_data]), driven by [main].

    Conventions of the embedding.
    - A value read by [json.load] is a [json] term.  A Python [dict] is the
      list of its items in insertion order; a lookup takes the first binding
      of the key.
    - A Python [int] is an exact integer ([JInt], unbounded).  A [float] is
      the rational it denotes ([JNum], over [Q]); the rounding of binary
      floating point and non-finite floats are outside the model.  The
      conversion of an [int] to a [float], which formatting with [.1f]
      does, fails beyond the binary64 range.
    - A Python [str] is a Rocq [string], one character per code point
      (code points below 256).
    - An f-string is kept as the list of its fragments ([fstring]) instead
      of the rendered text, so that the digits of a formatted number do not
      have to be modelled; whether formatting raises is modelled.
    - Side effects (console and log file output, external commands) are
      recorded in order in a [trace]; exceptions do not undo them.  Writing
      to the console and to the log file is taken to succeed. *)

From Stdlib Require Import String Ascii List Bool ZArith NArith QArith Lia.
From Stdlib Require Import Sorting.Sorted Sorting.Permutation.
Import ListNotations.

Local Open Scope string_scope.
Local Open Scope list_scope.

(** ** Python values *)

#[local] Set Warnings "-register-all".

Inductive json : Type :=
| JNull
| JBool (b : bool)
| JInt (z : Z)
| JNum (q : Q)
| JStr (s : string)
| JArr (l : list json)
| JObj (items : list (string * json)).

Inductive exn : Type :=
| AttributeError
| TypeError
| ValueError
| OverflowError
| KeyError (key : string)
| SystemExit (code : Z).

(** The result of evaluating an expression: a value or a raised exception. *)
Inductive outcome (A : Type) : Type :=
| Ret (a : A)
| Raise (e : exn).
Arguments Ret {A} a.
Arguments Raise {A} e.

Definition obind {A B} (o : outcome A) (k : A -> outcome B) : outcome B :=
  match o with
  | Ret a => k a
  | Raise e => Raise e
  end.

Notation "x <- e ;; k" := (obind e (fun x => k))
  (at level 61, e at next level, right associativity).

(** [bool(v)]: the truth value Python gives to [v]. *)
Definition truthy (v : json) : bool :=
  match v with
  | JNull => false
  | JBool b => b
  | JInt z => negb (z =? 0)%Z
  | JNum q => negb (Qeq_bool q 0)
  | JStr s => negb (s =? "")
  | JArr l => match l with [] => false | _ => true end
  | JObj items => match items with [] => false | _ => true end
  end.

Fixpoint lookup (k : string) (items : list (string * json)) : option json :=
  match items with
  | [] => None
  | (k', v) :: rest => if k' =? k then Some v else lookup k rest
  end.

(** [v.get(k, d)]: only a dict has the method. *)
Definition get (v : json) (k : string) (d : json) : outcome json :=
  match v with
  | JObj items => Ret (match lookup k items with Some x => x | None => d end)
  | _ => Raise AttributeError
  end.

(** [v[k]] with a string key. *)
Definition getitem (v : json) (k : string) : outcome json :=
  match v with
  | JObj items =>
      match lookup k items with
      | Some x => Ret x
      | None => Raise (KeyError k)
      end
  | _ => Raise TypeError
  end.

(** [for x in v]: the elements of a list, the characters of a string, the
    keys of a dict; other values are not iterable. *)
Fixpoint chars (s : string) : list json :=
  match s with
  | EmptyString => []
  | String c r => JStr (String c EmptyString) :: chars r
  end.

Definition iterate (v : json) : outcome (list json) :=
  match v with
  | JArr l => Ret l
  | JStr s => Ret (chars s)
  | JObj items => Ret (map (fun kv => JStr (fst kv)) items)
  | _ => Raise TypeError
  end.

(** The numeric value of [v] in an arithmetic or ordering context; [bool] is
    a subtype of [int]. *)
Definition as_number (v : json) : option Q :=
  match v with
  | JNum q => Some q
  | JInt z => Some (inject_Z z)
  | JBool b => Some (if b then 1 else 0)%Q
  | _ => None
  end.

(** Is the number an [int]?  A product of an [int] by the literal [100] is
    an [int] again, a product of a [float] a [float]. *)
Definition is_int (v : json) : bool :=
  match v with
  | JInt _ | JBool _ => true
  | _ => false
  end.

Definition Qltb (x y : Q) : bool := negb (Qle_bool y x).

(** [v < q] for a number [q]. *)
Definition py_lt (v : json) (q : Q) : outcome bool :=
  match as_number v with
  | Some x => Ret (Qltb x q)
  | None => Raise TypeError
  end.

(** [v == 0]: never raises, false on a value that is not a number. *)
Definition py_eq0 (v : json) : bool :=
  match as_number v with
  | Some x => Qeq_bool x 0
  | None => false
  end.

(** ** Messages and effects *)

(** The line feed, written [\n] in the source. *)
Definition LF : ascii := "010"%char.

Inductive frag : Type :=
| Lit (s : string)      (* literal text *)
| Str (v : json)        (* {v} *)
| Flt (q : Q)           (* {q} *)
| Fixed1 (q : Q).       (* {q:.1f} *)

Definition fstring := list frag.

Inductive color : Type := RED | YELLOW | CYAN | BLUE | GREEN.

Inductive effect : Type :=
| Emit (level : string) (message : fstring) (c : option color)
| Raw (text : string)
| Exec (cmd : fstring)
| Truncate.

Definition trace := list effect.

(** The least magnitude of an [int] that [float(n)] refuses: the midpoint
    between the largest binary64 value and [2^1024], which rounds up. *)
Definition double_limit : Z := (2 ^ 1024 - 2 ^ 970)%Z.

Definition fits (q : Q) : bool :=
  Qltb (- inject_Z double_limit) q && Qltb q (inject_Z double_limit).

(** [{x:.1f}] for a number [x] of value [q]: an [int] is converted to a
    [float] first, which raises [OverflowError] when it does not fit. *)
Definition fmt_fixed (whole : bool) (q : Q) : outcome frag :=
  if whole && negb (fits q) then Raise OverflowError else Ret (Fixed1 q).

(** [{v*100:.1f}]: [None*100] and [dict*100] are type errors; a repeated
    string rejects the format code with a [ValueError], a repeated list
    with a [TypeError]. *)
Definition fmt_percent (v : json) : outcome frag :=
  match as_number v with
  | Some q => fmt_fixed (is_int v) (q * 100)
  | None =>
      match v with
      | JStr _ => Raise ValueError
      | _ => Raise TypeError
      end
  end.

(** Computations with effects: the trace so far is extended, and kept when
    an exception is raised. *)
Definition M (A : Type) : Type := trace -> trace * outcome A.

Definition mret {A} (a : A) : M A := fun t => (t, Ret a).

Definition mraise {A} (e : exn) : M A := fun t => (t, Raise e).

Definition mbind {A B} (m : M A) (k : A -> M B) : M B :=
  fun t =>
    match m t with
    | (t', Ret a) => k a t'
    | (t', Raise e) => (t', Raise e)
    end.

Definition lift {A} (o : outcome A) : M A := fun t => (t, o).

Definition tell (e : effect) : M unit := fun t => (t ++ [e], Ret tt).

Notation "x <~ m ;; k" := (mbind m (fun x => k))
  (at level 61, m at next level, right associativity).
Notation "m ;;; k" := (mbind m (fun _ => k))
  (at level 61, right associativity).

Definition log_and_print (message : fstring) (level : string)
    (c : option color) : M unit :=
  tell (Emit level message c).

(** ** Sorting

    [list.sort] and [sorted] are stable and compare with [<] only.  For a
    list whose keys are totally preordered the stable arrangement is unique
    ([stable_arrangement_unique] below); it is computed here by insertion
    from the right, where an element goes in front of the first one that is
    not smaller. *)

Section StableSort.
Variable A : Type.
Variable lt : A -> A -> bool.

Fixpoint insert (x : A) (l : list A) : list A :=
  match l with
  | [] => [x]
  | y :: r => if lt y x then y :: insert x r else x :: y :: r
  end.

Fixpoint sort (l : list A) : list A :=
  match l with
  | [] => []
  | x :: r => insert x (sort r)
  end.
End StableSort.
Arguments insert {A} lt x l.
Arguments sort {A} lt l.

(** ** Stage 3: coverage analysis *)

(** An element of [models_needing_fixes].  The number under ['coverage'] is
    given by its value and by whether it is an [int]. *)
Record item : Type := {
  model : json;
  coverage : Q;
  whole : bool;
  missing_columns : list json
}.

(** Lines 96-99, the list comprehension: for each column in order the
    condition is evaluated first, then [col['name']]. *)
Fixpoint missing_cols_of (columns : list json) : outcome (list json) :=
  match columns with
  | [] => Ret []
  | col :: rest =>
      c <- get col "coverage" (JInt 0) ;;
      if py_eq0 c then
        n <- getitem col "name" ;;
        ns <- missing_cols_of rest ;;
        Ret (n :: ns)
      else missing_cols_of rest
  end.

(** Lines 92-106, the body of the loop over the tables: the record to
    append, if any. *)
Definition table_entry (table : json) : outcome (option item) :=
  name <- get table "name" (JStr "") ;;
  coverage_pct <- get table "coverage" (JInt 0) ;;
  match as_number coverage_pct with
  | None => Raise TypeError
  | Some pct =>
      if Qltb pct 1 then
        cols <- get table "columns" (JArr []) ;;
        cols <- iterate cols ;;
        missing_cols <- missing_cols_of cols ;;
        match missing_cols with
        | [] => Ret None
        | _ => Ret (Some {| model := name;
                            coverage := pct * 100;
                            whole := is_int coverage_pct;
                            missing_columns := missing_cols |})
        end
      else Ret None
  end.

(** Lines 89-106. *)
Fixpoint collect (tables : list json) : outcome (list item) :=
  match tables with
  | [] => Ret []
  | table :: rest =>
      e <- table_entry table ;;
      es <- collect rest ;;
      Ret (match e with Some i => i :: es | None => es end)
  end.

(** Line 108: [sort(key=lambda x: x['coverage'])]. *)
Definition sort_by_coverage : list item -> list item :=
  sort (fun x y => Qltb (coverage x) (coverage y)).

(** The value of [models_needing_fixes] after line 108. *)
Definition models_needing_fixes (coverage_data : json)
    : outcome (list item) :=
  tables <- get coverage_data "tables" (JArr []) ;;
  tables <- iterate tables ;;
  found <- collect tables ;;
  Ret (sort_by_coverage found).

Inductive status : Type := CRITICAL | WARNING | MINOR.

Definition status_name (s : status) : string :=
  match s with
  | CRITICAL => "CRITICAL"
  | WARNING => "WARNING"
  | MINOR => "MINOR"
  end.

Definition status_color (s : status) : color :=
  match s with
  | CRITICAL => RED
  | WARNING => YELLOW
  | MINOR => CYAN
  end.

(** Lines 114-122. *)
Definition severity (threshold : Q) (i : item) : status :=
  if Qeq_bool (coverage i) 0 then CRITICAL
  else if Qltb (coverage i) (threshold * 100) then WARNING
  else MINOR.

Fixpoint print_columns (cols : list json) : M unit :=
  match cols with
  | [] => mret tt
  | col :: rest =>
      log_and_print [Lit "  - "; Str col] "INFO" None ;;;
      print_columns rest
  end.

(** Lines 113-127. *)
Fixpoint print_items (threshold : Q) (items : list item) : M unit :=
  match items with
  | [] => mret tt
  | i :: rest =>
      let s := severity threshold i in
      pct <~ lift (fmt_fixed (whole i) (coverage i)) ;;
      log_and_print
        [Lit (String LF (status_name s)); Lit ": "; Str (model i); Lit " (";
         pct; Lit "%)"]
        (status_name s) (Some (status_color s)) ;;;
      log_and_print [Lit "Missing documentation for columns:"] "INFO" None ;;;
      print_columns (missing_columns i) ;;;
      print_items threshold rest
  end.

Definition analyze_coverage_data (coverage_data : json) (threshold : Q)
    : M Z :=
  if negb (truthy coverage_data) then
    log_and_print [Lit "No coverage data available to analyze"] "ERROR"
      (Some RED) ;;;
    mret 1%Z
  else
    total_coverage <~ lift (get coverage_data "coverage" (JInt 0)) ;;
    covered <~ lift (get coverage_data "covered" (JInt 0)) ;;
    total <~ lift (get coverage_data "total" (JInt 0)) ;;
    log_and_print [Lit (String LF "Documentation Coverage Summary")] "STATUS"
      (Some BLUE) ;;;
    pct <~ lift (fmt_percent total_coverage) ;;
    log_and_print
      [Lit "Coverage: "; Str covered; Lit "/"; Str total; Lit " columns (";
       pct; Lit "%)"]
      "INFO" (Some CYAN) ;;;
    items <~ lift (models_needing_fixes coverage_data) ;;
    (match items with
     | [] => mret tt
     | _ =>
         log_and_print [Lit (String LF "Models Requiring Documentation Fixes")]
           "STATUS" (Some YELLOW) ;;;
         print_items threshold items
     end) ;;;
    below <~ lift (py_lt total_coverage threshold) ;;
    if below then
      log_and_print
        [Lit (String LF "Documentation coverage ("); pct;
         Lit "%) is below the threshold of "; Flt (threshold * 100); Lit "%"]
        "ERROR" (Some RED) ;;;
      mret 1%Z
    else
      log_and_print
        [Lit (String LF "Documentation coverage ("); pct;
         Lit "%) meets or exceeds the threshold of "; Flt (threshold * 100);
         Lit "%"]
        "SUCCESS" (Some GREEN) ;;;
      mret 0%Z.

(** ** Stage 1: path discovery and filter construction *)

(** [str.isspace] on the code points below 256. *)
Definition isspace (c : ascii) : bool :=
  let n := N_of_ascii c in
  ((9 <=? n) && (n <=? 13) || (28 <=? n) && (n <=? 32)
   || (n =? 133) || (n =? 160))%N.

Fixpoint lstrip (s : string) : string :=
  match s with
  | EmptyString => EmptyString
  | String c r => if isspace c then lstrip r else s
  end.

Fixpoint rstrip (s : string) : string :=
  match s with
  | EmptyString => EmptyString
  | String c r =>
      match rstrip r with
      | EmptyString => if isspace c then EmptyString else String c EmptyString
      | r' => String c r'
      end
  end.

(** [s.strip()] *)
Definition strip (s : string) : string := rstrip (lstrip s).

(** [s.split('\n')]: never empty, the last field is what follows the last
    line feed. *)
Fixpoint split_lines (s : string) : list string :=
  match s with
  | EmptyString => [EmptyString]
  | String c r =>
      if (c =? LF)%char then EmptyString :: split_lines r
      else match split_lines r with
           | [] => [String c EmptyString]
           | f :: fs => String c f :: fs
           end
  end.

(** [sorted] on strings: code point order. *)
Definition sorted : list string -> list string := sort String.ltb.

(** What [subprocess.run(..., check=True)] does for the [find] command:
    it completes with an output, or raises [CalledProcessError]. *)
Inductive find_result : Type :=
| Completed (stdout : string)
| CalledProcessError (description : string).

Definition find_model_paths (r : find_result) : M (list string) :=
  match r with
  | Completed stdout =>
      mret (if negb (stdout =? "") then sorted (split_lines (strip stdout))
            else [])
  | CalledProcessError e =>
      log_and_print [Lit "Finding model paths failed: "; Lit e] "ERROR"
        (Some RED) ;;;
      mret []
  end.

(** [path.replace('./', '')]: every occurrence, scanning from the left. *)
Fixpoint replace_dot_slash (path : string) : string :=
  match path with
  | EmptyString => EmptyString
  | String c r =>
      match r with
      | String c' r' =>
          if ((c =? ".") && (c' =? "/"))%char then replace_dot_slash r'
          else String c (replace_dot_slash r)
      | EmptyString => String c EmptyString
      end
  end.

Definition create_path_filters (model_paths : list string) : string :=
  String.concat " "
    (map
       (fun path => ("--model-path-filter " ++ replace_dot_slash path)%string)
       (filter (fun path => negb (path =? "")) model_paths)).

(** ** Stage 2: coverage acquisition *)

(** The state of [documentation_coverage.json] after the command ran. *)
Inductive report_file : Type :=
| Absent
| Unreadable (description : string)   (* [open] or [json.load] raises *)
| Loaded (v : json).

(** What one run of the coverage tool does: its output, whether it exited
    with a non-zero status, and the report file it leaves. *)
Record coverage_run : Type := {
  run_stdout : string;
  run_failed : bool;
  run_report : report_file
}.

Definition run_dbt_coverage (path_filters : string) (threshold : Q)
    (r : coverage_run) : M json :=
  let output_file := "documentation_coverage.json" in
  log_and_print [Lit "Running dbt-coverage with filters: "; Lit path_filters]
    "INFO" (Some CYAN) ;;;
  let cmd :=
    [Lit "dbt-coverage compute doc "; Lit path_filters;
     Lit " --cov-format markdown --cov-fail-under "; Flt threshold;
     Lit " --cov-report "; Lit output_file] in
  log_and_print (Lit "Running command: " :: cmd) "INFO" (Some CYAN) ;;;
  tell (Exec cmd) ;;;
  tell (Raw (run_stdout r)) ;;;
  (if run_failed r then
     log_and_print
       [Lit "Documentation coverage is below the threshold of ";
        Flt (threshold * 100); Lit "%"]
       "ERROR" (Some RED)
   else mret tt) ;;;
  match run_report r with
  | Loaded v => mret v
  | Absent =>
      log_and_print [Lit "Output file "; Lit output_file; Lit " not found"]
        "ERROR" (Some RED) ;;;
      mret JNull
  | Unreadable e =>
      log_and_print [Lit "Running dbt-coverage failed: "; Lit e] "ERROR"
        (Some RED) ;;;
      mret JNull
  end.

(** ** The program *)

(** [sys.exit(code)] *)
Definition sys_exit {A} (code : Z) : M A := mraise (SystemExit code).

(** [threshold] is the parsed value of [DOC_COVERAGE_THRESHOLD] (0.9 when the
    variable is unset); [paths] and [run] are what the two external
    commands do. *)
Definition main (threshold : Q) (paths : find_result) (run : coverage_run)
    : M Z :=
  tell Truncate ;;;
  model_paths <~ find_model_paths paths ;;
  match model_paths with
  | [] =>
      log_and_print [Lit "No model paths found"] "ERROR" (Some RED) ;;;
      mret 1%Z
  | _ =>
      let path_filters := create_path_filters model_paths in
      coverage_data <~ run_dbt_coverage path_filters threshold run ;;
      exit_code <~ analyze_coverage_data coverage_data threshold ;;
      sys_exit exit_code
  end.

(** Lines 154-155: the module calls [main()] and drops what it returns.  The
    interpreter exits with the code of a [SystemExit], with 1 on any other
    uncaught exception, and with 0 when the module runs to its end. *)
Definition script (threshold : Q) (paths : find_result) (run : coverage_run)
    : trace * Z :=
  match main threshold paths run [] with
  | (t, Ret _) => (t, 0%Z)
  | (t, Raise (SystemExit code)) => (t, code)
  | (t, Raise _) => (t, 1%Z)
  end.

(** ** The report schema, as the specification reads it

    [{coverage, covered, total, tables: [{name, coverage, columns: [{name,
    coverage}]}]}].  The definitions of this part are not code of the
    script: they are the vocabulary in which its properties are stated.
    Every key may be missing except the name of a column; a coverage that is
    present is a number. *)

(** The value under key [k], [d] when there is none. *)
Definition field (v : json) (k : string) (d : json) : json :=
  match v with
  | JObj items => match lookup k items with Some x => x | None => d end
  | _ => d
  end.

Definition number_of (v : json) : Q :=
  match as_number v with Some q => q | None => 0 end.

Definition elements (v : json) : list json :=
  match v with JArr l => l | _ => [] end.

Definition aggregate_coverage (report : json) : Q :=
  number_of (field report "coverage" (JInt 0)).

Definition report_tables (report : json) : list json :=
  elements (field report "tables" (JArr [])).

Definition table_name (table : json) : json := field table "name" (JStr "").

Definition table_coverage (table : json) : Q :=
  number_of (field table "coverage" (JInt 0)).

Definition table_columns (table : json) : list json :=
  elements (field table "columns" (JArr [])).

Definition column_name (col : json) : json := field col "name" (JStr "").

Definition column_coverage (col : json) : Q :=
  number_of (field col "coverage" (JInt 0)).

Definition is_number (v : json) : bool :=
  match as_number v with Some _ => true | None => false end.

Definition is_array (v : json) : bool :=
  match v with JArr _ => true | _ => false end.

Definition has_key (k : string) (v : json) : bool :=
  match v with
  | JObj items => match lookup k items with Some _ => true | None => false end
  | _ => false
  end.

Definition is_object (v : json) : bool :=
  match v with JObj _ => true | _ => false end.

Definition column_conforms (col : json) : bool :=
  is_object col && has_key "name" col
  && is_number (field col "coverage" (JInt 0)).

Definition table_conforms (table : json) : bool :=
  is_object table
  && is_number (field table "coverage" (JInt 0))
  && is_array (field table "columns" (JArr []))
  && forallb column_conforms (table_columns table).

Definition tables_conform (report : json) : bool :=
  is_object report
  && is_array (field report "tables" (JArr []))
  && forallb table_conforms (report_tables report).

Definition report_conforms (report : json) : bool :=
  tables_conform report && is_number (field report "coverage" (JInt 0)).

(** A column without documentation. *)
Definition undocumented (col : json) : bool :=
  Qeq_bool (column_coverage col) 0.

(** A deficiency: coverage below 1.0 and some column with coverage 0. *)
Definition is_deficiency (table : json) : bool :=
  Qltb (table_coverage table) 1 && existsb undocumented (table_columns table).

(** The record of a deficiency: the names of the columns with coverage 0,
    in the order of the columns. *)
Definition deficiency_record (table : json) : item :=
  {| model := table_name table;
     coverage := table_coverage table * 100;
     whole := is_int (field table "coverage" (JInt 0));
     missing_columns := map column_name (filter undocumented
                                           (table_columns table)) |}.

(** The deficiencies of a report in the order of its tables. *)
Definition deficiencies (report : json) : list item :=
  map deficiency_record (filter is_deficiency (report_tables report)).

(** The same coverage percentage. *)
Definition same_coverage (q : Q) (i : item) : bool := Qeq_bool (coverage i) q.

(** Filter construction as the specification words it: only the root prefix
    is taken off a path. *)
Definition strip_root_prefix (path : string) : string :=
  match path with
  | String c (String c' r) =>
      if ((c =? ".") && (c' =? "/"))%char then r else path
  | _ => path
  end.

Definition spec_create_path_filters (paths : list string) : string :=
  String.concat " "
    (map (fun path => ("--model-path-filter " ++ strip_root_prefix path)%string)
       (filter (fun path => negb (path =? "")) paths)).

(** Does [./] occur in the string? *)
Fixpoint occurs_dot_slash (s : string) : bool :=
  match s with
  | EmptyString => false
  | String c r =>
      match r with
      | String c' _ => ((c =? ".") && (c' =? "/"))%char || occurs_dot_slash r
      | EmptyString => false
      end
  end.

(** The lines that the output of the query lists. *)
Definition listed_paths (r : find_result) : list string :=
  match r with
  | Completed stdout =>
      if stdout =? "" then [] else split_lines (strip stdout)
  | CalledProcessError _ => []
  end.

(** The order of [sorted] on strings. *)
Definition string_le (a b : string) : Prop := String.leb a b = true.

(** The order of the sort of line 108. *)
Definition coverage_le (a b : item) : Prop := (coverage a <= coverage b)%Q.

(** The code that the aggregate coverage of a report calls for. *)
Definition verdict (report : json) (threshold : Q) : Z :=
  if Qltb (aggregate_coverage report) threshold then 1%Z else 0%Z.

(** [m] extends every trace by [out] and returns [a]. *)
Definition emits {A} (m : M A) (out : list effect) (a : A) : Prop :=
  forall tr, m tr = (tr ++ out, Ret a).

(** What the analysis of a report writes: the two lines of the summary, a
    block per record of the list, and the line of the verdict. *)
Definition summary_lines (report : json) : list effect :=
  [Emit "STATUS" [Lit (String LF "Documentation Coverage Summary")]
     (Some BLUE);
   Emit "INFO"
     [Lit "Coverage: "; Str (field report "covered" (JInt 0)); Lit "/";
      Str (field report "total" (JInt 0)); Lit " columns (";
      Fixed1 (aggregate_coverage report * 100); Lit "%)"]
     (Some CYAN)].

Definition columns_lines (cols : list json) : list effect :=
  map (fun col => Emit "INFO" [Lit "  - "; Str col] None) cols.

Fixpoint items_lines (threshold : Q) (items : list item) : list effect :=
  match items with
  | [] => []
  | i :: rest =>
      let s := severity threshold i in
      [Emit (status_name s)
         [Lit (String LF (status_name s)); Lit ": "; Str (model i); Lit " (";
          Fixed1 (coverage i); Lit "%)"]
         (Some (status_color s))] ++
      [Emit "INFO" [Lit "Missing documentation for columns:"] None] ++
      columns_lines (missing_columns i) ++
      items_lines threshold rest
  end.

Definition fixes_lines (threshold : Q) (items : list item) : list effect :=
  match items with
  | [] => []
  | _ =>
      [Emit "STATUS" [Lit (String LF "Models Requiring Documentation Fixes")]
         (Some YELLOW)] ++
      items_lines threshold items
  end.

Definition verdict_line (report : json) (threshold : Q) : effect :=
  if Qltb (aggregate_coverage report) threshold then
    Emit "ERROR"
      [Lit (String LF "Documentation coverage (");
       Fixed1 (aggregate_coverage report * 100);
       Lit "%) is below the threshold of "; Flt (threshold * 100); Lit "%"]
      (Some RED)
  else
    Emit "SUCCESS"
      [Lit (String LF "Documentation coverage (");
       Fixed1 (aggregate_coverage report * 100);
       Lit "%) meets or exceeds the threshold of "; Flt (threshold * 100);
       Lit "%"]
      (Some GREEN).

Definition report_lines (report : json) (threshold : Q) (items : list item)
    : list effect :=
  summary_lines report ++ fixes_lines threshold items ++
  [verdict_line report threshold].

(** [m] runs to its end from every trace, extends the trace and returns
    [a]. *)
Definition returns {A} (m : M A) (a : A) : Prop :=
  forall tr, exists out, m tr = (tr ++ out, Ret a).

(** ** Sample inputs *)

(** The example report of the specification. *)
Definition orders_report : json :=
  JObj [("coverage", JNum 0.75); ("covered", JInt 3); ("total", JInt 4);
        ("tables",
         JArr [JObj [("name", JStr "orders"); ("coverage", JNum 0.5);
                     ("columns",
                      JArr [JObj [("name", JStr "id"); ("coverage", JInt 1)];
                            JObj [("name", JStr "total");
                                  ("coverage", JInt 0)]])]])].

Definition orders_record : item :=
  {| model := JStr "orders"; coverage := 0.5 * 100; whole := false;
     missing_columns := [JStr "total"] |}.

(** The same report, the undocumented column without its name. *)
Definition nameless_column_report : json :=
  JObj [("coverage", JNum 0.75); ("covered", JInt 3); ("total", JInt 4);
        ("tables",
         JArr [JObj [("name", JStr "orders"); ("coverage", JNum 0.5);
                     ("columns",
                      JArr [JObj [("name", JStr "id"); ("coverage", JInt 1)];
                            JObj [("coverage", JInt 0)]])]])].

(** A report whose only table has no documented column. *)
Definition undocumented_report : json :=
  JObj [("coverage", JInt 0); ("covered", JInt 0); ("total", JInt 1);
        ("tables",
         JArr [JObj [("name", JStr "raw"); ("coverage", JInt 0);
                     ("columns",
                      JArr [JObj [("name", JStr "id");
                                  ("coverage", JInt 0)]])]])].

Definition raw_record : item :=
  {| model := JStr "raw"; coverage := 0 * 100; whole := true;
     missing_columns := [JStr "id"] |}.

(** Two tables with the same coverage in front of a worse one. *)
Definition tied_report : json :=
  JObj [("coverage", JNum 0.4);
        ("tables",
         JArr [JObj [("name", JStr "b"); ("coverage", JNum 0.5);
                     ("columns", JArr [JObj [("name", JStr "x")]])];
               JObj [("name", JStr "a"); ("coverage", JNum 0.5);
                     ("columns", JArr [JObj [("name", JStr "y")]])];
               JObj [("name", JStr "c"); ("coverage", JNum 0.25);
                     ("columns", JArr [JObj [("name", JStr "z")]])]])].

(** The first table of [tied_report]. *)
Definition tied_table_b : json :=
  JObj [("name", JStr "b"); ("coverage", JNum 0.5);
        ("columns", JArr [JObj [("name", JStr "x")]])].

Definition tied_records : list item :=
  [{| model := JStr "c"; coverage := 0.25 * 100; whole := false;
      missing_columns := [JStr "z"] |};
   {| model := JStr "b"; coverage := 0.5 * 100; whole := false;
      missing_columns := [JStr "x"] |};
   {| model := JStr "a"; coverage := 0.5 * 100; whole := false;
      missing_columns := [JStr "y"] |}].

(** The output of the query over a models folder with the two directories
    [x<LF>y] and [z<LF>y]: a file name may hold a line feed. *)
Definition newline_names_output : string :=
  "./models/x" ++ String LF ("y" ++ String LF
  ("./models/z" ++ String LF ("y" ++ String LF ""))).

(** The output of the query over a models folder with two directories. *)
Definition two_models_output : string :=
  "./models/staging" ++ String LF ("./models/marts" ++ String LF "").

(** ** Vocabulary of the further properties *)

(** The output of a query that lists [lines], each followed by a line
    feed. *)
Fixpoint unlines (lines : list string) : string :=
  match lines with
  | [] => EmptyString
  | l :: r => (l ++ String LF (unlines r))%string
  end.

Fixpoint contains_lf (s : string) : bool :=
  match s with
  | EmptyString => false
  | String c r => (c =? LF)%char || contains_lf r
  end.

Definition starts_clean (s : string) : bool :=
  match s with
  | EmptyString => false
  | String c _ => negb (isspace c)
  end.

Fixpoint ends_clean (s : string) : bool :=
  match s with
  | EmptyString => false
  | String c r =>
      match r with
      | EmptyString => negb (isspace c)
      | _ => ends_clean r
      end
  end.

(** A line without line feed that neither starts nor ends with white
    space (so it is not empty). *)
Definition clean_line (l : string) : bool :=
  starts_clean l && ends_clean l && negb (contains_lf l).

(** The tokens that [create_path_filters] joins. *)
Definition filter_tokens (paths : list string) : list string :=
  map (fun path => ("--model-path-filter " ++ replace_dot_slash path)%string)
    (filter (fun path => negb (path =? "")) paths).

Definition is_emit (e : effect) : bool :=
  match e with Emit _ _ _ => true | _ => false end.

Definition is_exec (e : effect) : bool :=
  match e with Exec _ => true | _ => false end.

(** The command line of the coverage tool. *)
Definition coverage_command (path_filters : string) (threshold : Q)
    : fstring :=
  [Lit "dbt-coverage compute doc "; Lit path_filters;
   Lit " --cov-format markdown --cov-fail-under "; Flt threshold;
   Lit " --cov-report "; Lit "documentation_coverage.json"].

(** What [run_dbt_coverage] returns: the report when the file could be
    loaded, [None] otherwise. *)
Definition loaded_report (r : coverage_run) : json :=
  match run_report r with
  | Loaded v => v
  | _ => JNull
  end.

(** What [run_dbt_coverage] writes and runs. *)
Definition run_lines (path_filters : string) (threshold : Q)
    (r : coverage_run) : list effect :=
  [Emit "INFO" [Lit "Running dbt-coverage with filters: "; Lit path_filters]
     (Some CYAN);
   Emit "INFO" (Lit "Running command: "
                  :: coverage_command path_filters threshold)
     (Some CYAN);
   Exec (coverage_command path_filters threshold);
   Raw (run_stdout r)] ++
  (if run_failed r then
     [Emit "ERROR"
        [Lit "Documentation coverage is below the threshold of ";
         Flt (threshold * 100); Lit "%"]
        (Some RED)]
   else []) ++
  match run_report r with
  | Loaded _ => []
  | Absent =>
      [Emit "ERROR"
         [Lit "Output file "; Lit "documentation_coverage.json";
          Lit " not found"]
         (Some RED)]
  | Unreadable e =>
      [Emit "ERROR" [Lit "Running dbt-coverage failed: "; Lit e] (Some RED)]
  end.

Definition no_data_line : effect :=
  Emit "ERROR" [Lit "No coverage data available to analyze"] (Some RED).

(** [v == 0] on the coverage of a column, with the default of the code. *)
Definition zero_coverage (col : json) : bool :=
  py_eq0 (field col "coverage" (JInt 0)).

(** A column that line 97 cannot name. *)
Definition nameless_gap (col : json) : bool :=
  zero_coverage col && negb (has_key "name" col).

(** A table that is an object with a number (or nothing) as coverage and
    an array of objects (or nothing) as columns. *)
Definition table_typed (table : json) : bool :=
  is_object table
  && is_number (field table "coverage" (JInt 0))
  && is_array (field table "columns" (JArr []))
  && forallb is_object (table_columns table).

Definition tables_typed (report : json) : bool :=
  is_object report
  && is_array (field report "tables" (JArr []))
  && forallb table_typed (report_tables report).

(** A table on which line 97 raises. *)
Definition table_gap (table : json) : bool :=
  Qltb (table_coverage table) 1 && existsb nameless_gap (table_columns table).

(** The percentage of [v] can be formatted: [v] is not an [int] whose
    product by 100 is beyond the binary64 range. *)
Definition printable (v : json) : bool :=
  negb (is_int v) || fits (number_of v * 100).

Definition item_printable (i : item) : bool :=
  negb (whole i) || fits (coverage i).

(** The numbers that the analysis formats can be formatted: the aggregate
    coverage and the percentage of every deficiency. *)
Definition report_printable (report : json) : bool :=
  printable (field report "coverage" (JInt 0))
  && forallb item_printable (deficiencies report).

(** A report whose aggregate coverage is an [int] of 401 digits. *)
Definition huge_report : json :=
  JObj [("coverage", JInt (10 ^ 400)); ("tables", JArr [])].

(** A table that is an object with a coverage of at least 1. *)
Definition covered_table (table : json) : bool :=
  is_object table
  && is_number (field table "coverage" (JInt 0))
  && negb (Qltb (table_coverage table) 1).

(** Is there a table with coverage below 1 that has a column with coverage
    0 and without name? *)
Definition has_gap (report : json) : Prop :=
  exists table,
    In table (report_tables report) /\
    (table_coverage table < 1)%Q /\
    exists col,
      In col (table_columns table) /\
      zero_coverage col = true /\ has_key "name" col = false.

(** A report whose aggregate coverage is a string. *)
Definition text_coverage_report : json :=
  JObj [("coverage", JStr "75%"); ("tables", JArr [])].

Definition anything {A} (a : A) : Prop := True.

(** The exception is not a [SystemExit]. *)
Definition not_exit (e : exn) : Prop :=
  match e with SystemExit _ => False | _ => True end.

(** An expression that yields a value in [P] or raises an exception in
    [Q]. *)
Definition oyields {A} (o : outcome A) (P : A -> Prop) (Q : exn -> Prop)
    : Prop :=
  match o with Ret a => P a | Raise e => Q e end.

(** A computation that only writes lines, and returns a value in [P] or
    raises an exception in [Q]. *)
Definition logs_only {A} (m : M A) (P : A -> Prop) (Q : exn -> Prop)
    : Prop :=
  forall tr,
  exists out,
    fst (m tr) = tr ++ out /\
    forallb is_emit out = true /\
    oyields (snd (m tr)) P Q.

Definition is_truncate (e : effect) : bool :=
  match e with Truncate => true | _ => false end.

(** The filter string that [main] builds from the outcome of the query. *)
Definition discovered_filters (r : find_result) : string :=
  create_path_filters (sorted (listed_paths r)).

Definition zero_or_one (code : Z) : Prop := code = 0%Z \/ code = 1%Z.

(** A clean listing of three directories. *)
Definition three_models : list string :=
  ["./models/staging"; "./models/marts"; "./models/core"].

(** A run that fails and leaves no report. *)
Definition failed_run : coverage_run :=
  {| run_stdout := "error"; run_failed := true; run_report := Absent |}.

(** A run that fails after it wrote the report of the specification. *)
Definition orders_run : coverage_run :=
  {| run_stdout := "coverage"; run_failed := true;
     run_report := Loaded orders_report |}.

(** A run that succeeds and leaves the report with the nameless column. *)
Definition nameless_run : coverage_run :=
  {| run_stdout := "coverage"; run_failed := false;
     run_report := Loaded nameless_column_report |}.

(** A report with a table that is fully covered and whose columns are not
    even a list. *)
Definition covered_report : json :=
  JObj [("coverage", JInt 1);
        ("tables",
         JArr [JObj [("name", JStr "done"); ("coverage", JInt 1);
                     ("columns", JInt 7)]])].

(** * Properties *)

(** ** Stable insertion sort *)

Section StableSortFacts.
Variable A : Type.
Variable lt : A -> A -> bool.

Lemma insert_perm (x : A) (l : list A) : Permutation (x :: l) (insert lt x l).
Proof.
  induction l as [|y r IH]; simpl.
  - apply Permutation_refl.
  - destruct (lt y x).
    + apply perm_trans with (y :: x :: r).
      * apply perm_swap.
      * apply perm_skip, IH.
    + apply Permutation_refl.
Qed.

Lemma sort_perm (l : list A) : Permutation l (sort lt l).
Proof.
  induction l as [|x r IH]; simpl.
  - apply perm_nil.
  - apply perm_trans with (x :: sort lt r).
    + apply perm_skip, IH.
    + apply insert_perm.
Qed.

(** Sortedness, for an order [le] that [lt] decides. *)
Variable le : A -> A -> Prop.
Hypothesis not_lt_le : forall x y, lt y x = false -> le x y.
Hypothesis lt_le : forall x y, lt y x = true -> le y x.

Lemma insert_hd (a x : A) (l : list A) :
  le a x -> HdRel le a l -> HdRel le a (insert lt x l).
Proof.
  intros Hax Hl. destruct l as [|y r]; simpl.
  - constructor. exact Hax.
  - destruct (lt y x); constructor.
    + inversion Hl; assumption.
    + exact Hax.
Qed.

Lemma insert_sorted (x : A) (l : list A) :
  Sorted le l -> Sorted le (insert lt x l).
Proof.
  induction l as [|y r IH]; simpl; intros Hs.
  - repeat constructor.
  - inversion Hs as [|? ? Hr Hhd]; subst.
    destruct (lt y x) eqn:E.
    + constructor.
      * apply IH, Hr.
      * apply insert_hd; [apply lt_le, E | exact Hhd].
    + constructor; [exact Hs | constructor; apply not_lt_le, E].
Qed.

Lemma sort_sorted (l : list A) : Sorted le (sort lt l).
Proof.
  induction l as [|x r IH]; simpl.
  - constructor.
  - apply insert_sorted, IH.
Qed.

(** Stability: the elements of a class [p] within which nothing is
    smaller than anything keep their order. *)
Variable p : A -> bool.
Hypothesis p_class : forall x y, p x = true -> p y = true -> lt y x = false.

Lemma insert_stable (x : A) (l : list A) :
  filter p (insert lt x l) = filter p (x :: l).
Proof.
  induction l as [|y r IH]; simpl in *.
  - reflexivity.
  - destruct (lt y x) eqn:E; [|reflexivity].
    simpl. rewrite IH.
    destruct (p x) eqn:Px, (p y) eqn:Py; try reflexivity.
    rewrite (p_class x y Px Py) in E. discriminate.
Qed.

Lemma sort_stable (l : list A) : filter p (sort lt l) = filter p l.
Proof.
  induction l as [|x r IH]; simpl.
  - reflexivity.
  - rewrite insert_stable. simpl. rewrite IH. reflexivity.
Qed.
End StableSortFacts.

(** The arrangement is determined by being sorted and stable: two sorted
    lists in which every class [cls a] of equal keys reads the same are
    equal.  Every stable sort therefore computes [sort]. *)
Section StableUnique.
Variable A : Type.
Variable lt : A -> A -> bool.
Variable cls : A -> A -> bool.
Hypothesis lt_irrefl : forall x, lt x x = false.
Hypothesis cls_refl : forall x, cls x x = true.
Hypothesis cls_or_lt :
  forall x y, cls x y = false -> lt x y = true \/ lt y x = true.

Lemma class_head (x : A) (l : list A) : In x (filter (cls x) (x :: l)).
Proof. simpl. rewrite cls_refl. left. reflexivity. Qed.

Lemma smaller_not_behind (x y : A) (r : list A) :
  StronglySorted (fun a b => lt b a = false) (x :: r) ->
  In y (x :: r) -> lt y x = false.
Proof.
  intros Hs [E | Hin].
  - subst y. apply lt_irrefl.
  - apply StronglySorted_inv in Hs as [_ Hall].
    rewrite Forall_forall in Hall. apply Hall, Hin.
Qed.

Lemma stable_arrangement_unique (l1 l2 : list A) :
  StronglySorted (fun a b => lt b a = false) l1 ->
  StronglySorted (fun a b => lt b a = false) l2 ->
  (forall a, filter (cls a) l1 = filter (cls a) l2) ->
  l1 = l2.
Proof.
  revert l2. induction l1 as [|x r1 IH]; intros [|y r2] H1 H2 Hf.
  - reflexivity.
  - exfalso. assert (H := class_head y r2). rewrite <- Hf in H. exact H.
  - exfalso. assert (H := class_head x r1). rewrite Hf in H. exact H.
  - assert (E : x = y).
    { destruct (cls x y) eqn:C.
      - specialize (Hf x). simpl in Hf. rewrite cls_refl, C in Hf.
        congruence.
      - exfalso. destruct (cls_or_lt x y C) as [L | L].
        + assert (Hin : In x (y :: r2)).
          { apply (filter_In (cls x)). rewrite <- Hf. apply class_head. }
          rewrite (smaller_not_behind y x r2 H2 Hin) in L. discriminate.
        + assert (Hin : In y (x :: r1)).
          { apply (filter_In (cls y)). rewrite Hf. apply class_head. }
          rewrite (smaller_not_behind x y r1 H1 Hin) in L. discriminate. }
    subst y. f_equal. apply IH.
    + apply StronglySorted_inv in H1. tauto.
    + apply StronglySorted_inv in H2. tauto.
    + intros a. specialize (Hf a). simpl in Hf.
      destruct (cls a x); congruence.
Qed.
End StableUnique.

(** ** Comparison of numbers *)

Lemma Qltb_lt (x y : Q) : Qltb x y = true <-> (x < y)%Q.
Proof.
  unfold Qltb. rewrite negb_true_iff.
  split; intros H.
  - apply Qnot_le_lt. intros Hle.
    apply Qle_bool_iff in Hle. congruence.
  - destruct (Qle_bool y x) eqn:E; [|reflexivity].
    apply Qle_bool_iff in E. exfalso. exact (Qlt_not_le _ _ H E).
Qed.

Lemma Qltb_ge (x y : Q) : Qltb x y = false <-> (y <= x)%Q.
Proof.
  unfold Qltb. rewrite negb_false_iff. apply Qle_bool_iff.
Qed.

(** ** Reading a conforming report *)

Lemma get_object (v : json) (k : string) (d : json) :
  is_object v = true -> get v k d = Ret (field v k d).
Proof. destruct v; simpl; intros H; try discriminate. reflexivity. Qed.

Lemma getitem_has_key (v : json) (k : string) (d : json) :
  has_key k v = true -> getitem v k = Ret (field v k d).
Proof.
  destruct v; simpl; intros H; try discriminate.
  destruct (lookup k items); [reflexivity | discriminate].
Qed.

Lemma as_number_is_number (v : json) :
  is_number v = true -> as_number v = Some (number_of v).
Proof.
  unfold is_number, number_of.
  destruct (as_number v); [reflexivity | discriminate].
Qed.

Lemma py_eq0_is_number (v : json) :
  is_number v = true -> py_eq0 v = Qeq_bool (number_of v) 0.
Proof.
  intros H. unfold py_eq0. rewrite (as_number_is_number v H). reflexivity.
Qed.

Lemma iterate_array (v : json) :
  is_array v = true -> iterate v = Ret (elements v).
Proof. destruct v; simpl; intros H; try discriminate. reflexivity. Qed.

Lemma missing_cols_conform (cols : list json) :
  forallb column_conforms cols = true ->
  missing_cols_of cols = Ret (map column_name (filter undocumented cols)).
Proof.
  induction cols as [|col rest IH]; simpl; intros H.
  - reflexivity.
  - apply andb_true_iff in H as [Hcol Hrest].
    unfold column_conforms in Hcol.
    apply andb_true_iff in Hcol as [Hcol Hnum].
    apply andb_true_iff in Hcol as [Hobj Hname].
    rewrite (get_object col _ _ Hobj). simpl.
    rewrite (py_eq0_is_number _ Hnum).
    unfold undocumented at 1, column_coverage.
    destruct (Qeq_bool _ 0).
    + rewrite (getitem_has_key col "name" (JStr "") Hname). simpl.
      rewrite (IH Hrest). reflexivity.
    + apply IH, Hrest.
Qed.

Lemma filter_nil_existsb {A} (p : A -> bool) (l : list A) :
  filter p l = [] <-> existsb p l = false.
Proof.
  induction l as [|x r IH]; simpl.
  - tauto.
  - destruct (p x); simpl; [split; discriminate | exact IH].
Qed.

Lemma table_entry_conform (table : json) :
  table_conforms table = true ->
  table_entry table =
    Ret (if is_deficiency table then Some (deficiency_record table)
         else None).
Proof.
  unfold table_conforms. intros H.
  apply andb_true_iff in H as [H Hcols].
  apply andb_true_iff in H as [H Harr].
  apply andb_true_iff in H as [Hobj Hnum].
  unfold table_entry.
  rewrite (get_object table "name" _ Hobj). simpl.
  rewrite (get_object table "coverage" _ Hobj). simpl.
  rewrite (as_number_is_number _ Hnum).
  unfold is_deficiency. fold (table_coverage table).
  destruct (Qltb (table_coverage table) 1); [|reflexivity].
  rewrite (get_object table "columns" _ Hobj). simpl.
  rewrite (iterate_array _ Harr). simpl.
  fold (table_columns table).
  rewrite (missing_cols_conform _ Hcols). simpl.
  unfold deficiency_record.
  destruct (filter undocumented (table_columns table)) as [|c cs] eqn:E.
  - apply filter_nil_existsb in E. rewrite E. reflexivity.
  - destruct (existsb undocumented (table_columns table)) eqn:E'.
    + reflexivity.
    + apply filter_nil_existsb in E'. congruence.
Qed.

Lemma collect_conform (tables : list json) :
  forallb table_conforms tables = true ->
  collect tables = Ret (map deficiency_record (filter is_deficiency tables)).
Proof.
  induction tables as [|t rest IH]; simpl; intros H.
  - reflexivity.
  - apply andb_true_iff in H as [Ht Hrest].
    rewrite (table_entry_conform t Ht). simpl.
    rewrite (IH Hrest). simpl.
    destruct (is_deficiency t); reflexivity.
Qed.

Lemma models_needing_fixes_conform (report : json) :
  tables_conform report = true ->
  models_needing_fixes report = Ret (sort_by_coverage (deficiencies report)).
Proof.
  unfold tables_conform. intros H.
  apply andb_true_iff in H as [H Htabs].
  apply andb_true_iff in H as [Hobj Harr].
  unfold models_needing_fixes.
  rewrite (get_object report "tables" _ Hobj). simpl.
  rewrite (iterate_array _ Harr). simpl.
  fold (report_tables report).
  rewrite (collect_conform _ Htabs). reflexivity.
Qed.

(** ** The sort of line 108 *)

Lemma sort_by_coverage_perm (l : list item) :
  Permutation l (sort_by_coverage l).
Proof. apply sort_perm. Qed.

Lemma sort_by_coverage_sorted (l : list item) :
  Sorted coverage_le (sort_by_coverage l).
Proof.
  apply sort_sorted; unfold coverage_le; intros x y H.
  - apply Qltb_ge, H.
  - apply Qlt_le_weak, Qltb_lt, H.
Qed.

Lemma sort_by_coverage_stable (q : Q) (l : list item) :
  filter (same_coverage q) (sort_by_coverage l) = filter (same_coverage q) l.
Proof.
  apply sort_stable. unfold same_coverage. intros x y Hx Hy.
  apply Qeq_bool_iff in Hx, Hy. apply Qltb_ge.
  rewrite Hx, Hy. apply Qle_refl.
Qed.

Lemma strongly_sorted_by_lt (l : list item) :
  StronglySorted coverage_le l ->
  StronglySorted
    (fun a b => Qltb (coverage b) (coverage a) = false) l.
Proof.
  induction 1 as [|x r Hr IH Hall]; constructor.
  - exact IH.
  - rewrite Forall_forall in *. intros y Hy. apply Qltb_ge, Hall, Hy.
Qed.

Lemma sort_by_coverage_strongly_sorted (l : list item) :
  StronglySorted coverage_le (sort_by_coverage l).
Proof.
  apply Sorted_StronglySorted.
  - intros a b c Hab Hbc. unfold coverage_le in *.
    apply Qle_trans with (coverage b); assumption.
  - apply sort_by_coverage_sorted.
Qed.

(** Whatever stable sort [list.sort] runs, the list after line 108 is
    [sort_by_coverage] of the list before. *)
Lemma sort_by_coverage_unique (l l' : list item) :
  StronglySorted coverage_le l' ->
  (forall q, filter (same_coverage q) l' = filter (same_coverage q) l) ->
  l' = sort_by_coverage l.
Proof.
  intros Hs Hf.
  apply (stable_arrangement_unique item
           (fun x y => Qltb (coverage x) (coverage y))
           (fun a => same_coverage (coverage a))).
  - intros x. apply Qltb_ge, Qle_refl.
  - intros x. apply Qeq_bool_iff. reflexivity.
  - intros x y C. unfold same_coverage in C. apply Qeq_bool_neq in C.
    destruct (Q_dec (coverage x) (coverage y)) as [[L | L] | E].
    + left. apply Qltb_lt, L.
    + right. apply Qltb_lt, L.
    + exfalso. apply C. symmetry. exact E.
  - apply strongly_sorted_by_lt, Hs.
  - apply strongly_sorted_by_lt, sort_by_coverage_strongly_sorted.
  - intros a. rewrite Hf. symmetry. apply sort_by_coverage_stable.
Qed.

(** ** Computations that return *)

Lemma mbind_ret {A B} (m : M A) (k : A -> M B) (tr tr' : trace) (a : A) :
  m tr = (tr', Ret a) -> mbind m k tr = k a tr'.
Proof. intros H. unfold mbind. rewrite H. reflexivity. Qed.

Lemma emits_returns {A} (m : M A) (out : list effect) (a : A) :
  emits m out a -> returns m a.
Proof. intros H tr. exists out. apply H. Qed.

Lemma emits_mret {A} (a : A) : emits (mret a) [] a.
Proof. intros tr. unfold mret. rewrite app_nil_r. reflexivity. Qed.

Lemma emits_lift {A} (a : A) : emits (lift (Ret a)) [] a.
Proof. intros tr. unfold lift. rewrite app_nil_r. reflexivity. Qed.

Lemma emits_tell (e : effect) : emits (tell e) [e] tt.
Proof. intros tr. reflexivity. Qed.

Lemma emits_bind {A B} (m : M A) (k : A -> M B) (o1 o2 : list effect)
    (a : A) (b : B) :
  emits m o1 a -> emits (k a) o2 b -> emits (mbind m k) (o1 ++ o2) b.
Proof.
  intros Hm Hk tr. unfold mbind.
  rewrite (Hm tr), (Hk (tr ++ o1)), app_assoc. reflexivity.
Qed.

(** One statement of a sequence: an expression that is evaluated, or a
    line that is written. *)
Ltac emits_silent :=
  apply (emits_bind _ _ [] _ _ _ (emits_lift _)); cbv beta.

Ltac emits_line := apply (emits_bind _ _ [_] _ tt _ (emits_tell _)).

Lemma print_columns_emits (cols : list json) :
  emits (print_columns cols) (columns_lines cols) tt.
Proof.
  induction cols as [|col rest IH]; simpl.
  - apply emits_mret.
  - emits_line. exact IH.
Qed.

Lemma fmt_fixed_printable (i : item) :
  item_printable i = true ->
  fmt_fixed (whole i) (coverage i) = Ret (Fixed1 (coverage i)).
Proof.
  unfold item_printable, fmt_fixed. intros H.
  destruct (whole i), (fits (coverage i)); try discriminate; reflexivity.
Qed.

Lemma fmt_fixed_unprintable (i : item) :
  item_printable i = false ->
  fmt_fixed (whole i) (coverage i) = Raise OverflowError.
Proof.
  unfold item_printable, fmt_fixed. intros H.
  destruct (whole i), (fits (coverage i)); try discriminate; reflexivity.
Qed.

Lemma print_items_emits (threshold : Q) (items : list item) :
  forallb item_printable items = true ->
  emits (print_items threshold items) (items_lines threshold items) tt.
Proof.
  induction items as [|i rest IH]; simpl; intros H.
  - apply emits_mret.
  - apply andb_true_iff in H as [Hi Hrest].
    rewrite (fmt_fixed_printable i Hi). emits_silent.
    do 2 emits_line.
    apply (emits_bind _ _ _ _ tt tt);
      [apply print_columns_emits | exact (IH Hrest)].
Qed.

Lemma fmt_percent_number (v : json) :
  is_number v = true ->
  printable v = true ->
  fmt_percent v = Ret (Fixed1 (number_of v * 100)).
Proof.
  unfold printable, fmt_percent, fmt_fixed. intros Hn Hp.
  rewrite (as_number_is_number v Hn).
  destruct (is_int v), (fits (number_of v * 100));
    try discriminate; reflexivity.
Qed.

Lemma fmt_percent_overflow (v : json) :
  is_number v = true ->
  printable v = false ->
  fmt_percent v = Raise OverflowError.
Proof.
  unfold printable, fmt_percent, fmt_fixed. intros Hn Hp.
  rewrite (as_number_is_number v Hn).
  destruct (is_int v), (fits (number_of v * 100));
    try discriminate; reflexivity.
Qed.

Lemma py_lt_number (v : json) (q : Q) :
  is_number v = true -> py_lt v q = Ret (Qltb (number_of v) q).
Proof.
  intros H. unfold py_lt. rewrite (as_number_is_number v H). reflexivity.
Qed.

Lemma forallb_perm {A} (p : A -> bool) (l l' : list A) :
  Permutation l l' -> forallb p l = forallb p l'.
Proof.
  induction 1 as [| x l l' _ IH | x y l | l l' l'' _ IH1 _ IH2]; simpl.
  - reflexivity.
  - rewrite IH. reflexivity.
  - destruct (p x), (p y); reflexivity.
  - congruence.
Qed.

(** A report that is not empty, conforms to the schema and holds no number
    that cannot be formatted is analysed to the end: the summary, the blocks
    of [models_needing_fixes] in its order, and the verdict, whose code is
    computed from the aggregate coverage. *)
Lemma analyze_emits (report : json) (threshold : Q) :
  truthy report = true ->
  report_conforms report = true ->
  report_printable report = true ->
  emits (analyze_coverage_data report threshold)
    (report_lines report threshold (sort_by_coverage (deficiencies report)))
    (verdict report threshold).
Proof.
  intros Ht Hc Hp. unfold report_conforms in Hc.
  apply andb_true_iff in Hc as [Htabs Hnum].
  apply andb_true_iff in Hp as [Hagg Hitems].
  assert (Hobj : is_object report = true).
  { unfold tables_conform in Htabs.
    apply andb_true_iff in Htabs as [H _].
    apply andb_true_iff in H as [H _]. exact H. }
  unfold analyze_coverage_data. rewrite Ht. cbv beta iota.
  change (negb true) with false. cbv iota.
  rewrite !(get_object report _ _ Hobj).
  unfold report_lines, summary_lines.
  do 3 emits_silent. emits_line.
  rewrite (fmt_percent_number _ Hnum Hagg). emits_silent. emits_line.
  rewrite (models_needing_fixes_conform _ Htabs). emits_silent.
  apply (emits_bind _ _ _ _ tt).
  { rewrite (forallb_perm _ _ _ (sort_by_coverage_perm _)) in Hitems.
    unfold fixes_lines. destruct (sort_by_coverage (deficiencies report)).
    - apply emits_mret.
    - emits_line. apply print_items_emits, Hitems. }
  rewrite (py_lt_number _ _ Hnum). emits_silent.
  unfold verdict, verdict_line. fold (aggregate_coverage report).
  destruct (Qltb (aggregate_coverage report) threshold);
    emits_line; apply emits_mret.
Qed.

Lemma analyze_conform (report : json) (threshold : Q) :
  truthy report = true ->
  report_conforms report = true ->
  report_printable report = true ->
  returns (analyze_coverage_data report threshold) (verdict report threshold).
Proof.
  intros Ht Hc Hp. exact (emits_returns _ _ _ (analyze_emits _ _ Ht Hc Hp)).
Qed.

(** ** The verdict *)

Lemma verdict_one (report : json) (threshold : Q) :
  verdict report threshold = 1%Z <-> (aggregate_coverage report < threshold)%Q.
Proof.
  unfold verdict. rewrite <- Qltb_lt.
  destruct (Qltb (aggregate_coverage report) threshold);
    split; intros H; congruence.
Qed.

Lemma verdict_zero (report : json) (threshold : Q) :
  verdict report threshold = 0%Z <->
  ~ (aggregate_coverage report < threshold)%Q.
Proof.
  unfold verdict. rewrite <- Qltb_lt.
  destruct (Qltb (aggregate_coverage report) threshold);
    split; intros H; congruence.
Qed.

Lemma verdict_aggregate (r r' : json) (threshold : Q) :
  (aggregate_coverage r' == aggregate_coverage r)%Q ->
  verdict r' threshold = verdict r threshold.
Proof.
  intros H. unfold verdict, Qltb. rewrite H. reflexivity.
Qed.

(** C1, as stated, fails: the empty report [{}] is present, its aggregate
    coverage defaults to 0, which is not below the threshold 0, and the
    analysis still returns 1. *)
Lemma empty_report_fails_at_threshold_zero :
  ~ (snd (analyze_coverage_data (JObj []) 0 []) = Ret 1%Z <->
     (aggregate_coverage (JObj []) < 0)%Q).
Proof.
  intros [H _].
  assert (Hlt : (aggregate_coverage (JObj []) < 0)%Q) by (apply H; reflexivity).
  revert Hlt. apply Qlt_irrefl.
Qed.

(** C1, amended: for every report that is not empty, conforms to the
    schema (keys optional, columns named) and holds no number that cannot
    be formatted (no [int] beyond the binary64 range as aggregate coverage
    or coverage of a deficiency), and for every threshold,
    [analyze_coverage_data] returns a code, which is 1 iff the aggregate
    coverage (0 when missing) is strictly below the threshold and 0
    otherwise; every other such report with the same aggregate coverage gets
    the same code, whatever its tables. *)
Theorem verdict_is_aggregate_only (report : json) (threshold : Q) :
  truthy report = true ->
  report_conforms report = true ->
  report_printable report = true ->
  exists code,
    returns (analyze_coverage_data report threshold) code /\
    (code = 1%Z <-> (aggregate_coverage report < threshold)%Q) /\
    (code = 0%Z <-> ~ (aggregate_coverage report < threshold)%Q) /\
    forall report',
      truthy report' = true ->
      report_conforms report' = true ->
      report_printable report' = true ->
      (aggregate_coverage report' == aggregate_coverage report)%Q ->
      returns (analyze_coverage_data report' threshold) code.
Proof.
  intros Ht Hc Hp. exists (verdict report threshold).
  split; [apply analyze_conform; assumption |].
  split; [apply verdict_one |].
  split; [apply verdict_zero |].
  intros r' Ht' Hc' Hp' Heq.
  rewrite <- (verdict_aggregate report r' threshold Heq).
  apply analyze_conform; assumption.
Qed.

Lemma verdict_is_aggregate_only_witness :
  exists code,
    returns (analyze_coverage_data orders_report 0.9) code /\
    (code = 1%Z <-> (aggregate_coverage orders_report < 0.9)%Q) /\
    (code = 0%Z <-> ~ (aggregate_coverage orders_report < 0.9)%Q) /\
    forall report',
      truthy report' = true ->
      report_conforms report' = true ->
      report_printable report' = true ->
      (aggregate_coverage report' == aggregate_coverage orders_report)%Q ->
      returns (analyze_coverage_data report' 0.9) code.
Proof.
  apply (verdict_is_aggregate_only orders_report 0.9); reflexivity.
Defined.

(** ** No coverage data *)

(** C7: for every threshold, [analyze_coverage_data(None, threshold)] emits
    the single message that no coverage data is available, neither summary
    nor deficiency list, and returns 1. *)
Theorem analyze_none (threshold : Q) (tr : trace) :
  analyze_coverage_data JNull threshold tr =
    (tr ++ [Emit "ERROR" [Lit "No coverage data available to analyze"]
              (Some RED)],
     Ret 1%Z).
Proof. reflexivity. Qed.

(** C10: for every threshold, a falsy report (in particular the empty dict)
    is handled as an absent one: the no-data message and the code 1. *)
Theorem analyze_falsy (report : json) (threshold : Q) (tr : trace) :
  truthy report = false ->
  analyze_coverage_data report threshold tr =
    (tr ++ [Emit "ERROR" [Lit "No coverage data available to analyze"]
              (Some RED)],
     Ret 1%Z).
Proof.
  intros H. unfold analyze_coverage_data. rewrite H. reflexivity.
Qed.

(** The empty dict at threshold 0: the code is 1 although the aggregate
    coverage, defaulted to 0, is not below 0. *)
Lemma analyze_falsy_witness :
  truthy (JObj []) = false /\
  analyze_coverage_data (JObj []) 0 [] =
    ([Emit "ERROR" [Lit "No coverage data available to analyze"] (Some RED)],
     Ret 1%Z) /\
  ~ (aggregate_coverage (JObj []) < 0)%Q.
Proof.
  split; [reflexivity |].
  split; [apply (analyze_falsy (JObj []) 0 []); reflexivity |].
  apply Qlt_irrefl.
Defined.

(** ** Missing keys *)

(** C5 fails on the code: a column with coverage 0 and no [name] key makes
    line 97 raise [KeyError], after the summary has been emitted. *)
Theorem analyze_nameless_column_raises (threshold : Q) (tr : trace) :
  analyze_coverage_data nameless_column_report threshold tr =
    (tr ++ summary_lines nameless_column_report, Raise (KeyError "name")).
Proof.
  unfold analyze_coverage_data, mbind, lift, log_and_print, tell.
  simpl. rewrite <- app_assoc. reflexivity.
Qed.

(** ** The exit status *)

(** C6 fails on the code: when no path is found [main] returns 1 to the
    module, which drops it, and the process exits with status 0.  Nothing was
    run and nothing analysed. *)
Theorem no_paths_exit_status (threshold : Q) (run : coverage_run) :
  script threshold (Completed "") run =
    ([Truncate; Emit "ERROR" [Lit "No model paths found"] (Some RED)], 0%Z) /\
  forall e,
    script threshold (CalledProcessError e) run =
      ([Truncate;
        Emit "ERROR" [Lit "Finding model paths failed: "; Lit e] (Some RED);
        Emit "ERROR" [Lit "No model paths found"] (Some RED)], 0%Z).
Proof. split; [reflexivity | intros e; reflexivity]. Qed.

(** ** The deficiency list *)

Lemma is_deficiency_iff (table : json) :
  is_deficiency table = true <->
  (table_coverage table < 1)%Q /\
  exists col, In col (table_columns table) /\ (column_coverage col == 0)%Q.
Proof.
  unfold is_deficiency. rewrite andb_true_iff, Qltb_lt, existsb_exists.
  unfold undocumented.
  split; intros [Hlt [col [Hin Hz]]]; (split; [exact Hlt |]);
    exists col; (split; [exact Hin |]); apply Qeq_bool_iff, Hz.
Qed.

Lemma deficiency_record_missing (table : json) :
  is_deficiency table = true ->
  missing_columns (deficiency_record table) <> [].
Proof.
  unfold is_deficiency. intros H. apply andb_true_iff in H as [_ H].
  simpl. intros E. apply map_eq_nil in E.
  apply filter_nil_existsb in E. congruence.
Qed.

Lemma in_deficiencies (report : json) (i : item) :
  In i (deficiencies report) <->
  exists table,
    In table (report_tables report) /\ is_deficiency table = true /\
    i = deficiency_record table.
Proof.
  unfold deficiencies. rewrite in_map_iff. split.
  - intros [t [E Hin]]. apply filter_In in Hin as [Hin Hd].
    exists t. auto.
  - intros [t [Hin [Hd E]]]. exists t. split; [auto |].
    apply filter_In. auto.
Qed.

(** A table with the record of a deficiency is a deficiency. *)
Lemma deficiency_record_reflects (t t' : json) :
  deficiency_record t = deficiency_record t' ->
  is_deficiency t' = true -> is_deficiency t = true.
Proof.
  intros E Hd.
  assert (Hm := deficiency_record_missing t' Hd). rewrite <- E in Hm.
  assert (Hc : coverage (deficiency_record t) = coverage (deficiency_record t'))
    by (rewrite E; reflexivity).
  simpl in Hc, Hm.
  unfold is_deficiency in *. apply andb_true_iff in Hd as [Hlt _].
  apply andb_true_iff. split.
  - apply Qltb_lt. apply Qltb_lt in Hlt.
    assert (Hq : (table_coverage t == table_coverage t')%Q).
    { apply (Qmult_inj_r _ _ 100); [discriminate |].
      rewrite Hc. reflexivity. }
    rewrite Hq. exact Hlt.
  - destruct (existsb undocumented (table_columns t)) eqn:Ex; [reflexivity |].
    apply filter_nil_existsb in Ex. rewrite Ex in Hm. contradiction.
Qed.

(** C2: for a report that conforms to the schema, the deficiency list holds
    exactly the records of the deficient tables: a table has its record in
    the list iff its coverage is below 1.0 and one of its columns has
    coverage 0; the record lists the names of the columns with coverage 0 in
    column order, and this list is never empty. *)
Theorem deficiency_list_membership (report : json) :
  tables_conform report = true ->
  exists items,
    models_needing_fixes report = Ret items /\
    Permutation (deficiencies report) items /\
    (forall table,
        In table (report_tables report) ->
        (In (deficiency_record table) items <->
         (table_coverage table < 1)%Q /\
         exists col,
           In col (table_columns table) /\ (column_coverage col == 0)%Q)) /\
    (forall i,
        In i items ->
        missing_columns i <> [] /\
        exists table,
          In table (report_tables report) /\
          model i = table_name table /\
          coverage i = (table_coverage table * 100)%Q /\
          missing_columns i =
            map column_name (filter undocumented (table_columns table))).
Proof.
  intros Hc. exists (sort_by_coverage (deficiencies report)).
  split; [apply models_needing_fixes_conform, Hc |].
  split; [apply sort_by_coverage_perm |].
  split.
  - intros t Hin. rewrite <- is_deficiency_iff. split.
    + intros Hi.
      apply (Permutation_in _ (Permutation_sym (sort_by_coverage_perm _))) in Hi.
      apply in_deficiencies in Hi as [t' [_ [Hd E]]].
      exact (deficiency_record_reflects t t' E Hd).
    + intros Hd. apply (Permutation_in _ (sort_by_coverage_perm _)).
      apply in_deficiencies. exists t. auto.
  - intros i Hi.
    apply (Permutation_in _ (Permutation_sym (sort_by_coverage_perm _))) in Hi.
    apply in_deficiencies in Hi as [t [Hin [Hd E]]]. subst i. split.
    + apply deficiency_record_missing, Hd.
    + exists t. repeat split. exact Hin.
Qed.

Lemma deficiency_list_membership_witness :
  exists items,
    models_needing_fixes orders_report = Ret items /\
    Permutation (deficiencies orders_report) items /\
    (forall table,
        In table (report_tables orders_report) ->
        (In (deficiency_record table) items <->
         (table_coverage table < 1)%Q /\
         exists col,
           In col (table_columns table) /\ (column_coverage col == 0)%Q)) /\
    (forall i,
        In i items ->
        missing_columns i <> [] /\
        exists table,
          In table (report_tables orders_report) /\
          model i = table_name table /\
          coverage i = (table_coverage table * 100)%Q /\
          missing_columns i =
            map column_name (filter undocumented (table_columns table))).
Proof.
  apply (deficiency_list_membership orders_report). reflexivity.
Defined.

(** The example of the specification. *)
Example orders_deficiencies :
  models_needing_fixes orders_report = Ret [orders_record].
Proof. reflexivity. Qed.

(** C4: for a report that conforms to the schema, the deficiency list is in
    non-decreasing order of coverage percentage, and the records of any one
    percentage are in the order of their tables in the report. *)
Theorem deficiency_list_sorted_stable (report : json) :
  tables_conform report = true ->
  exists items,
    models_needing_fixes report = Ret items /\
    Sorted coverage_le items /\
    forall q,
      filter (same_coverage q) items =
      filter (same_coverage q) (deficiencies report).
Proof.
  intros Hc. exists (sort_by_coverage (deficiencies report)).
  split; [apply models_needing_fixes_conform, Hc |].
  split; [apply sort_by_coverage_sorted |].
  intros q. apply sort_by_coverage_stable.
Qed.

Lemma deficiency_list_sorted_stable_witness :
  exists items,
    models_needing_fixes tied_report = Ret items /\
    Sorted coverage_le items /\
    forall q,
      filter (same_coverage q) items =
      filter (same_coverage q) (deficiencies tied_report).
Proof.
  apply (deficiency_list_sorted_stable tied_report). reflexivity.
Defined.

(** The worse table first, the tied ones in the order of the report. *)
Example tied_deficiencies :
  models_needing_fixes tied_report =
    Ret [{| model := JStr "c"; coverage := 0.25 * 100; whole := false;
            missing_columns := [JStr "z"] |};
         {| model := JStr "b"; coverage := 0.5 * 100; whole := false;
            missing_columns := [JStr "x"] |};
         {| model := JStr "a"; coverage := 0.5 * 100; whole := false;
            missing_columns := [JStr "y"] |}].
Proof. reflexivity. Qed.

(** ** Severity *)

Lemma severity_critical (threshold : Q) (i : item) :
  severity threshold i = CRITICAL <-> (coverage i == 0)%Q.
Proof.
  unfold severity. rewrite <- Qeq_bool_iff.
  destruct (Qeq_bool (coverage i) 0).
  - tauto.
  - destruct (Qltb (coverage i) (threshold * 100)); split; discriminate.
Qed.

Lemma severity_warning (threshold : Q) (i : item) :
  severity threshold i = WARNING <->
  ~ (coverage i == 0)%Q /\ (coverage i < threshold * 100)%Q.
Proof.
  unfold severity. rewrite <- Qeq_bool_iff, <- Qltb_lt.
  destruct (Qeq_bool (coverage i) 0).
  - split; [discriminate | intros [H _]; exfalso; apply H; reflexivity].
  - destruct (Qltb (coverage i) (threshold * 100)).
    + split; [split; [discriminate | reflexivity] | reflexivity].
    + split; [discriminate | intros [_ H]; discriminate].
Qed.

Lemma severity_minor (threshold : Q) (i : item) :
  severity threshold i = MINOR <->
  ~ (coverage i == 0)%Q /\ (threshold * 100 <= coverage i)%Q.
Proof.
  unfold severity. rewrite <- Qeq_bool_iff, <- Qltb_ge.
  destruct (Qeq_bool (coverage i) 0).
  - split; [discriminate | intros [H _]; exfalso; apply H; reflexivity].
  - destruct (Qltb (coverage i) (threshold * 100)).
    + split; [discriminate | intros [_ H]; discriminate].
    + split; [split; [discriminate | reflexivity] | reflexivity].
Qed.

Lemma positive_iff (q : Q) : (0 <= q)%Q -> (~ (q == 0)%Q <-> (0 < q)%Q).
Proof.
  intros Hq. split.
  - intros Hn. apply Qle_lt_or_eq in Hq as [H | H]; [exact H |].
    exfalso. apply Hn. symmetry. exact H.
  - intros Hlt He. rewrite He in Hlt. revert Hlt. apply Qlt_irrefl.
Qed.

(** C3, as stated, fails at threshold 0: the record of a table without any
    documented column has coverage percentage 0, which is not below
    threshold*100 = 0, and it is CRITICAL, not MINOR. *)
Lemma critical_at_threshold_zero_not_minor :
  models_needing_fixes undocumented_report = Ret [raw_record] /\
  ~ (severity 0 raw_record = MINOR <-> (0 * 100 <= coverage raw_record)%Q).
Proof.
  split; [reflexivity |].
  intros [_ H].
  assert (E : severity 0 raw_record = MINOR) by (apply H; discriminate).
  discriminate E.
Qed.

(** C3, amended: every record of the deficiency list has a coverage
    percentage below 100 and, for every threshold, exactly one severity:
    CRITICAL iff the percentage is 0, WARNING iff it is not 0 and below
    threshold*100 (for a percentage that is not negative: iff
    0 < percentage < threshold*100), MINOR iff it is not 0 and at least
    threshold*100. *)
Theorem severity_classification (report : json) :
  tables_conform report = true ->
  exists items,
    models_needing_fixes report = Ret items /\
    forall i,
      In i items ->
      (coverage i < 100)%Q /\
      forall threshold,
        (severity threshold i = CRITICAL <-> (coverage i == 0)%Q) /\
        (severity threshold i = WARNING <->
         ~ (coverage i == 0)%Q /\ (coverage i < threshold * 100)%Q) /\
        (severity threshold i = MINOR <->
         ~ (coverage i == 0)%Q /\ (threshold * 100 <= coverage i)%Q) /\
        ((0 <= coverage i)%Q ->
         (severity threshold i = WARNING <->
          (0 < coverage i)%Q /\ (coverage i < threshold * 100)%Q)).
Proof.
  intros Hc. exists (sort_by_coverage (deficiencies report)).
  split; [apply models_needing_fixes_conform, Hc |].
  intros i Hi. split.
  - apply (Permutation_in _ (Permutation_sym (sort_by_coverage_perm _))) in Hi.
    apply in_deficiencies in Hi as [t [_ [Hd E]]]. subst i. simpl.
    apply is_deficiency_iff in Hd as [Hlt _].
    setoid_replace 100%Q with (1 * 100)%Q at 2 by reflexivity.
    apply Qmult_lt_compat_r; [reflexivity | exact Hlt].
  - intros threshold.
    split; [apply severity_critical |].
    split; [apply severity_warning |].
    split; [apply severity_minor |].
    intros Hpos. rewrite severity_warning, (positive_iff _ Hpos). tauto.
Qed.

Lemma severity_classification_witness :
  exists items,
    models_needing_fixes orders_report = Ret items /\
    forall i,
      In i items ->
      (coverage i < 100)%Q /\
      forall threshold,
        (severity threshold i = CRITICAL <-> (coverage i == 0)%Q) /\
        (severity threshold i = WARNING <->
         ~ (coverage i == 0)%Q /\ (coverage i < threshold * 100)%Q) /\
        (severity threshold i = MINOR <->
         ~ (coverage i == 0)%Q /\ (threshold * 100 <= coverage i)%Q) /\
        ((0 <= coverage i)%Q ->
         (severity threshold i = WARNING <->
          (0 < coverage i)%Q /\ (coverage i < threshold * 100)%Q)).
Proof.
  apply (severity_classification orders_report). reflexivity.
Defined.

(** The example of the specification: WARNING at threshold 0.9, MINOR at
    threshold 0.5. *)
Example orders_severity :
  severity 0.9 orders_record = WARNING /\ severity 0.5 orders_record = MINOR.
Proof. split; reflexivity. Qed.

(** ** Filter construction *)

Lemma replace_without_occurrence (s : string) :
  occurs_dot_slash s = false -> replace_dot_slash s = s.
Proof.
  induction s as [|c r IH]; [reflexivity |].
  destruct r as [|c' r']; [reflexivity |].
  intros H. change (occurs_dot_slash (String c (String c' r')))
    with (((c =? ".") && (c' =? "/"))%char || occurs_dot_slash (String c' r'))
    in H.
  apply orb_false_iff in H as [Ht Ho].
  change (replace_dot_slash (String c (String c' r')))
    with (if ((c =? ".") && (c' =? "/"))%char then replace_dot_slash r'
          else String c (replace_dot_slash (String c' r'))).
  rewrite Ht, (IH Ho). reflexivity.
Qed.

Lemma replace_root_relative (path : string) :
  occurs_dot_slash (strip_root_prefix path) = false ->
  replace_dot_slash path = strip_root_prefix path.
Proof.
  destruct path as [|c [|c' r]]; try reflexivity.
  unfold strip_root_prefix.
  destruct ((c =? ".") && (c' =? "/"))%char eqn:Ht; intros H.
  - change (replace_dot_slash (String c (String c' r)))
      with (if ((c =? ".") && (c' =? "/"))%char then replace_dot_slash r
            else String c (replace_dot_slash (String c' r))).
    rewrite Ht. apply replace_without_occurrence, H.
  - apply replace_without_occurrence, H.
Qed.

(** C8, as stated, fails: [replace] removes every occurrence of [./], not
    only the root prefix. *)
Lemma inner_dot_slash_is_removed :
  create_path_filters ["./models/a./b"] = "--model-path-filter models/ab" /\
  create_path_filters ["./models/a./b"] <>
  spec_create_path_filters ["./models/a./b"].
Proof. split; [reflexivity | discriminate]. Qed.

(** C8, amended: [create_path_filters] returns the empty string for the
    empty sequence and joins with single spaces one token
    [--model-path-filter <path>] per non-empty path, the path with every
    occurrence of [./] removed; for paths in which [./] occurs at most as
    the root prefix this is the path with only that prefix stripped. *)
Theorem create_path_filters_strips_root (model_paths : list string) :
  create_path_filters [] = "" /\
  create_path_filters model_paths =
    String.concat " "
      (map (fun path => ("--model-path-filter " ++ replace_dot_slash path)%string)
         (filter (fun path => negb (path =? "")) model_paths)) /\
  ((forall path,
       In path model_paths ->
       occurs_dot_slash (strip_root_prefix path) = false) ->
   create_path_filters model_paths = spec_create_path_filters model_paths).
Proof.
  split; [reflexivity |]. split; [reflexivity |].
  intros H. unfold create_path_filters, spec_create_path_filters.
  f_equal. apply map_ext_in. intros path Hin.
  apply filter_In in Hin as [Hin _].
  rewrite (replace_root_relative path (H path Hin)). reflexivity.
Qed.

Lemma create_path_filters_strips_root_witness :
  (forall path,
      In path ["./models/marts"; ""; "./models/staging"] ->
      occurs_dot_slash (strip_root_prefix path) = false) /\
  create_path_filters ["./models/marts"; ""; "./models/staging"] =
    "--model-path-filter models/marts --model-path-filter models/staging".
Proof.
  assert (H : forall path,
             In path ["./models/marts"; ""; "./models/staging"] ->
             occurs_dot_slash (strip_root_prefix path) = false).
  { intros path [E | [E | [E | []]]]; subst path; reflexivity. }
  split; [exact H |].
  destruct (create_path_filters_strips_root
              ["./models/marts"; ""; "./models/staging"]) as [_ [_ Hs]].
  rewrite (Hs H). reflexivity.
Defined.

(** ** Path discovery *)

Lemma sorted_is_sorted (l : list string) : Sorted string_le (sorted l).
Proof.
  apply sort_sorted; unfold string_le, String.ltb, String.leb; intros x y H.
  - rewrite String.compare_antisym.
    destruct (String.compare y x); simpl; congruence.
  - destruct (String.compare y x); congruence.
Qed.

Lemma sorted_perm (l : list string) : Permutation l (sorted l).
Proof. apply sort_perm. Qed.

Lemma find_model_paths_listed (r : find_result) :
  returns (find_model_paths r) (sorted (listed_paths r)).
Proof.
  destruct r as [stdout | e]; simpl.
  - destruct (stdout =? ""); simpl; exact (emits_returns _ _ _ (emits_mret _)).
  - eapply emits_returns.
    eapply emits_bind; [apply emits_tell | apply emits_mret].
Qed.

(** C9, as stated, fails: the result is sorted but no duplicate is removed.
    Two directories whose names differ before a line feed and agree after it
    make the query list the same line twice. *)
Lemma repeated_line_is_kept :
  find_model_paths (Completed newline_names_output) [] =
    ([], Ret ["./models/x"; "./models/z"; "y"; "y"]) /\
  ~ NoDup ["./models/x"; "./models/z"; "y"; "y"].
Proof.
  split; [reflexivity |].
  intros H. apply NoDup_cons_iff in H as [_ H].
  apply NoDup_cons_iff in H as [_ H].
  apply NoDup_cons_iff in H as [Hn _]. apply Hn. left. reflexivity.
Qed.

(** C9, amended: for every outcome of the query, [find_model_paths] returns
    the lines that the output lists in lexicographic order, each as often as
    it is listed, so without duplicate exactly when no line is listed twice;
    it returns the empty sequence when the output is empty or the query
    fails. *)
Theorem find_model_paths_sorted (r : find_result) :
  exists paths,
    returns (find_model_paths r) paths /\
    Sorted string_le paths /\
    Permutation (listed_paths r) paths /\
    (NoDup paths <-> NoDup (listed_paths r)) /\
    returns (find_model_paths (Completed "")) [] /\
    forall e, returns (find_model_paths (CalledProcessError e)) [].
Proof.
  exists (sorted (listed_paths r)).
  split; [apply find_model_paths_listed |].
  split; [apply sorted_is_sorted |].
  split; [apply sorted_perm |].
  split; [| split].
  - split; apply Permutation_NoDup;
      [apply Permutation_sym |]; apply sorted_perm.
  - apply (find_model_paths_listed (Completed "")).
  - intros e. apply (find_model_paths_listed (CalledProcessError e)).
Qed.

Lemma find_model_paths_sorted_witness :
  exists paths,
    returns (find_model_paths (Completed two_models_output)) paths /\
    Sorted string_le paths /\
    Permutation (listed_paths (Completed two_models_output)) paths /\
    (NoDup paths <-> NoDup (listed_paths (Completed two_models_output))) /\
    returns (find_model_paths (Completed "")) [] /\
    forall e, returns (find_model_paths (CalledProcessError e)) [].
Proof. apply (find_model_paths_sorted (Completed two_models_output)). Defined.

Example two_models_paths :
  find_model_paths (Completed two_models_output) [] =
    ([], Ret ["./models/marts"; "./models/staging"]).
Proof. reflexivity. Qed.

(** ** The exit status of an analysed run *)

Lemma run_dbt_coverage_loaded (path_filters : string) (threshold : Q)
    (run : coverage_run) (v : json) :
  run_report run = Loaded v ->
  returns (run_dbt_coverage path_filters threshold run) v.
Proof.
  intros H. unfold run_dbt_coverage. rewrite H.
  destruct (run_failed run); eapply emits_returns;
    do 4 (eapply emits_bind; [apply emits_tell |]);
    (eapply emits_bind with (a := tt);
     [first [apply emits_tell | apply emits_mret] | apply emits_mret]).
Qed.

(** The other path of [main]: when paths are found and the report is
    analysed, the code of the analysis is passed to [sys.exit] and is the
    exit status. *)
Lemma analysed_exit_status (threshold : Q) (stdout : string)
    (run : coverage_run) (report : json) :
  listed_paths (Completed stdout) <> [] ->
  run_report run = Loaded report ->
  truthy report = true ->
  report_conforms report = true ->
  report_printable report = true ->
  snd (script threshold (Completed stdout) run) = verdict report threshold.
Proof.
  intros Hp Hr Ht Hc Hpr. unfold script, main.
  rewrite (mbind_ret _ _ [] [Truncate] tt eq_refl).
  destruct (find_model_paths_listed (Completed stdout) [Truncate])
    as [o0 H0].
  rewrite (mbind_ret _ _ _ _ _ H0).
  destruct (sorted (listed_paths (Completed stdout))) as [|p ps] eqn:E.
  - exfalso. apply Hp.
    apply Permutation_nil. rewrite <- E. apply Permutation_sym, sorted_perm.
  - destruct (run_dbt_coverage_loaded (create_path_filters (p :: ps))
                threshold run report Hr ([Truncate] ++ o0)) as [o1 H1].
    rewrite (mbind_ret _ _ _ _ _ H1).
    destruct (analyze_conform report threshold Ht Hc Hpr
                (([Truncate] ++ o0) ++ o1)) as [o2 H2].
    rewrite (mbind_ret _ _ _ _ _ H2). reflexivity.
Qed.

(** * Further properties *)

(** ** Path discovery on a listing *)

Lemma split_lines_line (l s : string) :
  contains_lf l = false ->
  split_lines (l ++ String LF s) = l :: split_lines s.
Proof.
  induction l as [|c r IH]; simpl; intros H.
  - reflexivity.
  - apply orb_false_iff in H as [Hc Hr]. rewrite Hc, (IH Hr). reflexivity.
Qed.

Lemma split_lines_last (l : string) :
  contains_lf l = false -> split_lines l = [l].
Proof.
  induction l as [|c r IH]; simpl; intros H.
  - reflexivity.
  - apply orb_false_iff in H as [Hc Hr]. rewrite Hc, (IH Hr). reflexivity.
Qed.

Lemma split_lines_join (l : string) (ls : list string) :
  forallb (fun x => negb (contains_lf x)) (l :: ls) = true ->
  split_lines (String.concat (String LF "") (l :: ls)) = l :: ls.
Proof.
  revert l. induction ls as [|l' r IH]; intros l H.
  - simpl in *. rewrite andb_true_r in H. apply negb_true_iff in H.
    apply split_lines_last, H.
  - apply andb_true_iff in H as [Hl Hr]. apply negb_true_iff in Hl.
    change (String.concat (String LF "") (l :: l' :: r))
      with (l ++ String LF (String.concat (String LF "") (l' :: r)))%string.
    rewrite (split_lines_line _ _ Hl), (IH l' Hr). reflexivity.
Qed.

Lemma append_assoc (s t u : string) :
  ((s ++ t) ++ u)%string = (s ++ (t ++ u))%string.
Proof. induction s as [|c r IH]; simpl; [|rewrite IH]; reflexivity. Qed.

Lemma unlines_join (l : string) (ls : list string) :
  unlines (l :: ls) =
    (String.concat (String LF "") (l :: ls) ++ String LF "")%string.
Proof.
  revert l. induction ls as [|l' r IH]; intros l.
  - reflexivity.
  - change (unlines (l :: l' :: r))
      with (l ++ String LF (unlines (l' :: r)))%string.
    rewrite (IH l').
    change (String.concat (String LF "") (l :: l' :: r))
      with (l ++ String LF (String.concat (String LF "") (l' :: r)))%string.
    rewrite append_assoc. reflexivity.
Qed.

Lemma lstrip_clean (s : string) : starts_clean s = true -> lstrip s = s.
Proof.
  destruct s as [|c r]; simpl; intros H; [discriminate |].
  apply negb_true_iff in H. rewrite H. reflexivity.
Qed.

Lemma starts_clean_append (s t : string) :
  starts_clean s = true -> starts_clean (s ++ t) = true.
Proof. destruct s; simpl; intros H; [discriminate | exact H]. Qed.

Lemma rstrip_clean (s : string) : ends_clean s = true -> rstrip s = s.
Proof.
  induction s as [|c r IH]; intros H; [discriminate |].
  destruct r as [|c' r'].
  - simpl in *. apply negb_true_iff in H. rewrite H. reflexivity.
  - change (ends_clean (String c (String c' r')))
      with (ends_clean (String c' r')) in H.
    change (rstrip (String c (String c' r')))
      with (match rstrip (String c' r') with
            | EmptyString =>
                if isspace c then EmptyString else String c EmptyString
            | x => String c x
            end).
    rewrite (IH H). reflexivity.
Qed.

Lemma rstrip_line_feed (s : string) :
  rstrip (s ++ String LF "") = rstrip s.
Proof.
  induction s as [|c r IH]; [reflexivity |].
  change (rstrip (String c r ++ String LF ""))
    with (match rstrip (r ++ String LF "") with
          | EmptyString =>
              if isspace c then EmptyString else String c EmptyString
          | x => String c x
          end).
  rewrite IH. reflexivity.
Qed.

Lemma ends_clean_append (s t : string) :
  ends_clean t = true -> ends_clean (s ++ t) = true.
Proof.
  intros H. induction s as [|c r IH]; [exact H |].
  simpl. destruct (r ++ t)%string eqn:E; [|exact IH].
  destruct r; simpl in E; [|discriminate]. subst t. discriminate.
Qed.

Lemma ends_clean_join (l : string) (ls : list string) :
  forallb ends_clean (l :: ls) = true ->
  ends_clean (String.concat (String LF "") (l :: ls)) = true.
Proof.
  revert l. induction ls as [|l' r IH]; intros l H.
  - simpl in *. rewrite andb_true_r in H. exact H.
  - apply andb_true_iff in H as [_ Hr].
    change (String.concat (String LF "") (l :: l' :: r))
      with (l ++ String LF (String.concat (String LF "") (l' :: r)))%string.
    apply ends_clean_append.
    apply (ends_clean_append (String LF "")), IH, Hr.
Qed.

Lemma forallb_weaken {A} (p q : A -> bool) (l : list A) :
  (forall x, p x = true -> q x = true) ->
  forallb p l = true -> forallb q l = true.
Proof.
  intros Hpq. rewrite !forallb_forall. intros H x Hx. apply Hpq, H, Hx.
Qed.

Lemma clean_line_parts (l : string) :
  clean_line l = true ->
  starts_clean l = true /\ ends_clean l = true /\ contains_lf l = false.
Proof.
  unfold clean_line. intros H.
  apply andb_true_iff in H as [H Hlf].
  apply andb_true_iff in H as [Hs He].
  apply negb_true_iff in Hlf. auto.
Qed.

Lemma strip_unlines (l : string) (ls : list string) :
  forallb clean_line (l :: ls) = true ->
  strip (unlines (l :: ls)) = String.concat (String LF "") (l :: ls).
Proof.
  intros H. unfold strip.
  assert (Hs : starts_clean (unlines (l :: ls)) = true).
  { simpl. apply starts_clean_append.
    simpl in H. apply andb_true_iff in H as [Hl _].
    apply clean_line_parts in Hl. tauto. }
  rewrite (lstrip_clean _ Hs), unlines_join, rstrip_line_feed.
  apply rstrip_clean, ends_clean_join.
  apply (forallb_weaken clean_line); [|exact H].
  intros x Hx. apply clean_line_parts in Hx. tauto.
Qed.

(** X1: when the query prints a listing of clean lines (no line feed inside,
    no white space at either end), each followed by a line feed,
    [find_model_paths] returns exactly these lines, sorted, and writes
    nothing. *)
Theorem find_model_paths_of_listing (l : string) (ls : list string)
    (tr : trace) :
  forallb clean_line (l :: ls) = true ->
  find_model_paths (Completed (unlines (l :: ls))) tr =
    (tr, Ret (sorted (l :: ls))).
Proof.
  intros H. unfold find_model_paths, mret.
  assert (Hne : (unlines (l :: ls) =? "") = false).
  { simpl in H. apply andb_true_iff in H as [Hl _].
    apply clean_line_parts in Hl as [Hs _].
    destruct l; [discriminate | reflexivity]. }
  rewrite Hne. simpl negb. cbv iota.
  rewrite (strip_unlines l ls H), split_lines_join; [reflexivity |].
  apply (forallb_weaken clean_line); [|exact H].
  intros x Hx. apply clean_line_parts in Hx as [_ [_ Hx]].
  rewrite Hx. reflexivity.
Qed.

Lemma find_model_paths_of_listing_witness :
  find_model_paths (Completed (unlines three_models)) [] =
    ([], Ret ["./models/core"; "./models/marts"; "./models/staging"]).
Proof.
  apply (find_model_paths_of_listing "./models/staging"
           ["./models/marts"; "./models/core"] []).
  reflexivity.
Defined.

Lemma split_lines_not_nil (s : string) : split_lines s <> [].
Proof.
  destruct s as [|c r]; simpl; [discriminate |].
  destruct (c =? LF)%char; [discriminate |].
  destruct (split_lines r); discriminate.
Qed.

(** X2: [find_model_paths] returns the empty list exactly when the query
    fails or its output is the empty string; any other output, even one of
    white space only, yields at least one path. *)
Theorem find_model_paths_empty_iff (r : find_result) (tr : trace) :
  snd (find_model_paths r tr) = Ret [] <->
  r = Completed "" \/ exists e, r = CalledProcessError e.
Proof.
  destruct r as [stdout | e]; simpl.
  - destruct (stdout =? "") eqn:E; simpl.
    + apply String.eqb_eq in E. subst stdout. split; auto.
    + split.
      * intros H. exfalso.
        assert (Hs : sorted (split_lines (strip stdout)) = [])
          by congruence.
        apply (split_lines_not_nil (strip stdout)).
        apply Permutation_nil. rewrite <- Hs.
        apply Permutation_sym, sorted_perm.
      * intros [H | [e H]]; [|discriminate].
        injection H as H. subst stdout. discriminate.
  - split; [intros _; right; exists e; reflexivity | reflexivity].
Qed.

Lemma find_model_paths_empty_iff_witness :
  snd (find_model_paths (Completed (String LF "")) []) = Ret [""] /\
  (snd (find_model_paths (Completed "") []) = Ret [] <->
   Completed "" = Completed "" \/
   exists e, Completed "" = CalledProcessError e).
Proof.
  split; [reflexivity |].
  apply (find_model_paths_empty_iff (Completed "") []).
Defined.

(** ** The filter string *)

Lemma concat_tokens_empty (ts : list string) :
  Forall (fun t => t <> "") ts ->
  String.concat " " ts = "" -> ts = [].
Proof.
  intros Hall H. destruct ts as [|t r]; [reflexivity |].
  exfalso. apply Forall_inv in Hall.
  destruct t as [|c t']; [apply Hall; reflexivity |].
  destruct r; simpl in H; discriminate.
Qed.

Lemma filter_tokens_not_empty (paths : list string) :
  Forall (fun t => t <> "") (filter_tokens paths).
Proof.
  unfold filter_tokens. apply Forall_forall. intros t Ht.
  apply in_map_iff in Ht as [p [E _]]. subst t. discriminate.
Qed.

Lemma filter_tokens_nil (paths : list string) :
  filter_tokens paths = [] <-> forall p, In p paths -> p = "".
Proof.
  unfold filter_tokens. split.
  - intros H p Hin. apply map_eq_nil in H.
    destruct (p =? "") eqn:E; [apply String.eqb_eq, E |].
    exfalso. assert (Hf : In p (filter (fun path => negb (path =? "")) paths)).
    { apply filter_In. rewrite E. auto. }
    rewrite H in Hf. exact Hf.
  - intros H. induction paths as [|p r IH]; [reflexivity |].
    simpl. rewrite (H p (or_introl eq_refl)). simpl.
    apply IH. intros q Hq. apply H. right. exact Hq.
Qed.

Lemma concat_app (sep : string) (a b : list string) :
  a <> [] -> b <> [] ->
  String.concat sep (a ++ b) =
    (String.concat sep a ++ sep ++ String.concat sep b)%string.
Proof.
  intros Ha Hb. induction a as [|x r IH]; [contradiction |].
  destruct r as [|x' r'].
  - destruct b; [contradiction | reflexivity].
  - change (String.concat sep ((x :: x' :: r') ++ b))
      with (x ++ sep ++ String.concat sep ((x' :: r') ++ b))%string.
    rewrite IH by discriminate.
    change (String.concat sep (x :: x' :: r'))
      with (x ++ sep ++ String.concat sep (x' :: r'))%string.
    rewrite !append_assoc. reflexivity.
Qed.

(** X3: [create_path_filters] returns the empty string exactly when every
    path of the sequence is empty; a sequence with one non-empty path always
    gives a filter. *)
Theorem create_path_filters_empty_iff (model_paths : list string) :
  create_path_filters model_paths = "" <->
  forall path, In path model_paths -> path = "".
Proof.
  rewrite <- filter_tokens_nil. split.
  - apply concat_tokens_empty, filter_tokens_not_empty.
  - unfold create_path_filters. fold (filter_tokens model_paths).
    intros H. rewrite H. reflexivity.
Qed.

Lemma create_path_filters_empty_iff_witness :
  create_path_filters [""; ""] = "" <->
  forall path, In path [""; ""] -> path = "".
Proof. apply (create_path_filters_empty_iff [""; ""]). Defined.

(** X4: the filter of a concatenation is the two filters joined by one
    space, or the one that is not empty: empty paths leave no trace, at the
    ends or in the middle. *)
Theorem create_path_filters_app (l1 l2 : list string) :
  create_path_filters (l1 ++ l2) =
    if create_path_filters l1 =? "" then create_path_filters l2
    else if create_path_filters l2 =? "" then create_path_filters l1
    else (create_path_filters l1 ++ " " ++ create_path_filters l2)%string.
Proof.
  assert (Hnil : forall l, filter_tokens l = [] -> create_path_filters l = "").
  { intros l H. unfold create_path_filters. fold (filter_tokens l).
    rewrite H. reflexivity. }
  assert (Happ : filter_tokens (l1 ++ l2) = filter_tokens l1 ++ filter_tokens l2).
  { unfold filter_tokens. rewrite filter_app, map_app. reflexivity. }
  destruct (create_path_filters l1 =? "") eqn:E1.
  - apply String.eqb_eq in E1.
    apply concat_tokens_empty in E1; [|apply filter_tokens_not_empty].
    fold (filter_tokens l1) in E1.
    unfold create_path_filters. fold (filter_tokens (l1 ++ l2)).
    rewrite Happ, E1. reflexivity.
  - apply String.eqb_neq in E1.
    destruct (create_path_filters l2 =? "") eqn:E2.
    + apply String.eqb_eq in E2.
      apply concat_tokens_empty in E2; [|apply filter_tokens_not_empty].
      fold (filter_tokens l2) in E2.
      unfold create_path_filters. fold (filter_tokens (l1 ++ l2)).
      rewrite Happ, E2, app_nil_r. reflexivity.
    + apply String.eqb_neq in E2.
      unfold create_path_filters at 1. fold (filter_tokens (l1 ++ l2)).
      rewrite Happ. apply concat_app.
      * intros H. apply E1, Hnil, H.
      * intros H. apply E2, Hnil, H.
Qed.

(** ** Coverage acquisition *)

Lemma run_dbt_coverage_emits (path_filters : string) (threshold : Q)
    (r : coverage_run) :
  emits (run_dbt_coverage path_filters threshold r)
    (run_lines path_filters threshold r) (loaded_report r).
Proof.
  unfold run_dbt_coverage, run_lines, loaded_report, coverage_command.
  do 4 emits_line.
  apply (emits_bind _ _ _ _ tt).
  { destruct (run_failed r); [apply emits_tell | apply emits_mret]. }
  destruct (run_report r).
  - apply (emits_bind _ _ [_] [] tt _ (emits_tell _)), emits_mret.
  - apply (emits_bind _ _ [_] [] tt _ (emits_tell _)), emits_mret.
  - apply emits_mret.
Qed.

Lemma run_lines_one_command (path_filters : string) (threshold : Q)
    (r : coverage_run) :
  filter is_exec (run_lines path_filters threshold r) =
    [Exec (coverage_command path_filters threshold)].
Proof.
  unfold run_lines. destruct (run_failed r), (run_report r); reflexivity.
Qed.

(** X5: [run_dbt_coverage] never raises.  Whatever the exit status of the
    tool, it runs the command once and copies the output of the tool to the
    log.  When the report file could be loaded it returns the value loaded
    (which may itself be [null]); when the file is absent or unreadable it
    returns [None], and the last entry it writes is an ERROR line. *)
Theorem run_dbt_coverage_total (path_filters : string) (threshold : Q)
    (r : coverage_run) :
  exists out,
    emits (run_dbt_coverage path_filters threshold r) out (loaded_report r) /\
    filter is_exec out = [Exec (coverage_command path_filters threshold)] /\
    In (Raw (run_stdout r)) out /\
    (forall v, run_report r = Loaded v -> loaded_report r = v) /\
    ((forall v, run_report r <> Loaded v) ->
     loaded_report r = JNull /\
     exists message, last out Truncate = Emit "ERROR" message (Some RED)).
Proof.
  exists (run_lines path_filters threshold r).
  split; [apply run_dbt_coverage_emits |].
  split; [apply run_lines_one_command |].
  split; [unfold run_lines; simpl; auto |].
  split.
  - intros v H. unfold loaded_report. rewrite H. reflexivity.
  - intros H. unfold loaded_report, run_lines.
    destruct (run_report r) as [| e | v];
      [| | exfalso; apply (H v); reflexivity];
      (split; [reflexivity |]);
      destruct (run_failed r); eexists; reflexivity.
Qed.

Lemma run_dbt_coverage_total_witness :
  exists out,
    emits (run_dbt_coverage "--model-path-filter models/a" 0.9 failed_run)
      out (loaded_report failed_run) /\
    filter is_exec out =
      [Exec (coverage_command "--model-path-filter models/a" 0.9)] /\
    In (Raw (run_stdout failed_run)) out /\
    (forall v, run_report failed_run = Loaded v -> loaded_report failed_run = v) /\
    ((forall v, run_report failed_run <> Loaded v) ->
     loaded_report failed_run = JNull /\
     exists message, last out Truncate = Emit "ERROR" message (Some RED)).
Proof.
  apply (run_dbt_coverage_total "--model-path-filter models/a" 0.9 failed_run).
Defined.

(** ** What the analysis writes *)

(** X6: the analysis of a report that is not empty, conforms to the schema
    and holds no number that cannot be formatted (no [int] beyond the
    binary64 range as aggregate coverage or coverage of a deficiency)
    writes the two lines of the summary, then, when the deficiency
    list is not empty, a header and one block per record in the order of the
    list (severity line, caption, one line per missing column), then the one
    line of the verdict, and returns the code of the verdict. *)
Theorem analyze_report_lines (report : json) (threshold : Q) :
  truthy report = true ->
  report_conforms report = true ->
  report_printable report = true ->
  exists items,
    models_needing_fixes report = Ret items /\
    emits (analyze_coverage_data report threshold)
      (summary_lines report ++ fixes_lines threshold items ++
       [verdict_line report threshold])
      (verdict report threshold).
Proof.
  intros Ht Hc Hp. exists (sort_by_coverage (deficiencies report)). split.
  - apply models_needing_fixes_conform.
    unfold report_conforms in Hc. apply andb_true_iff in Hc. tauto.
  - apply (analyze_emits report threshold Ht Hc Hp).
Qed.

Lemma analyze_report_lines_witness :
  exists items,
    models_needing_fixes orders_report = Ret items /\
    emits (analyze_coverage_data orders_report 0.5)
      (summary_lines orders_report ++ fixes_lines 0.5 items ++
       [verdict_line orders_report 0.5])
      (verdict orders_report 0.5).
Proof. apply (analyze_report_lines orders_report 0.5); reflexivity. Defined.

(** ** Reports of the wrong shape *)

(** X7: a report that is truthy and not a dict (a non-empty list or string,
    a number other than 0, [true]) makes the analysis raise
    [AttributeError] at its first access; nothing has been written. *)
Theorem analyze_not_a_dict (report : json) (threshold : Q) (tr : trace) :
  truthy report = true ->
  is_object report = false ->
  analyze_coverage_data report threshold tr = (tr, Raise AttributeError).
Proof.
  intros Ht Ho. unfold analyze_coverage_data. rewrite Ht.
  destruct report; simpl in *; try discriminate; reflexivity.
Qed.

Lemma analyze_not_a_dict_witness :
  analyze_coverage_data (JArr [JInt 1]) 0.9 [] = ([], Raise AttributeError).
Proof.
  apply (analyze_not_a_dict (JArr [JInt 1]) 0.9 []); reflexivity.
Defined.

(** X8: when the aggregate coverage of a non-empty dict is not a number the
    analysis raises while it formats the summary: [ValueError] for a string,
    [TypeError] for [null], a list or a dict.  Only the title of the summary
    has been written; there is no verdict. *)
Theorem analyze_coverage_not_a_number (report : json) (threshold : Q)
    (tr : trace) :
  truthy report = true ->
  is_object report = true ->
  is_number (field report "coverage" (JInt 0)) = false ->
  analyze_coverage_data report threshold tr =
    (tr ++ [Emit "STATUS" [Lit (String LF "Documentation Coverage Summary")]
              (Some BLUE)],
     Raise (match field report "coverage" (JInt 0) with
            | JStr _ => ValueError
            | _ => TypeError
            end)).
Proof.
  intros Ht Ho Hn. unfold analyze_coverage_data. rewrite Ht. simpl.
  rewrite !(get_object report _ _ Ho).
  unfold mbind, lift, log_and_print, tell.
  destruct (field report "coverage" (JInt 0)); simpl in *;
    try discriminate; reflexivity.
Qed.

Lemma analyze_coverage_not_a_number_witness :
  analyze_coverage_data text_coverage_report 0.9 [] =
    ([Emit "STATUS" [Lit (String LF "Documentation Coverage Summary")]
        (Some BLUE)],
     Raise ValueError).
Proof.
  apply (analyze_coverage_not_a_number text_coverage_report 0.9 []);
    reflexivity.
Defined.

(** ** When line 97 raises *)

Lemma getitem_no_key (v : json) (k : string) :
  is_object v = true -> has_key k v = false -> getitem v k = Raise (KeyError k).
Proof.
  destruct v; simpl; intros Ho Hk; try discriminate.
  destruct (lookup k items); [discriminate | reflexivity].
Qed.

Lemma missing_cols_typed (cols : list json) :
  forallb is_object cols = true ->
  missing_cols_of cols =
    if existsb nameless_gap cols then Raise (KeyError "name")
    else Ret (map column_name (filter zero_coverage cols)).
Proof.
  induction cols as [|col rest IH]; simpl; intros H; [reflexivity |].
  apply andb_true_iff in H as [Ho Hrest].
  rewrite (get_object col _ _ Ho). simpl.
  unfold nameless_gap at 1. fold (zero_coverage col).
  destruct (zero_coverage col); simpl.
  - destruct (has_key "name" col) eqn:Hk; simpl.
    + rewrite (getitem_has_key col "name" (JStr "") Hk). simpl.
      rewrite (IH Hrest). destruct (existsb nameless_gap rest); reflexivity.
    + rewrite (getitem_no_key col "name" Ho Hk). reflexivity.
  - apply IH, Hrest.
Qed.

Lemma table_entry_typed (table : json) :
  table_typed table = true ->
  if table_gap table then table_entry table = Raise (KeyError "name")
  else exists e, table_entry table = Ret e.
Proof.
  unfold table_typed. intros H.
  apply andb_true_iff in H as [H Hcols].
  apply andb_true_iff in H as [H Harr].
  apply andb_true_iff in H as [Hobj Hnum].
  unfold table_entry, table_gap.
  rewrite (get_object table "name" _ Hobj). simpl.
  rewrite (get_object table "coverage" _ Hobj). simpl.
  rewrite (as_number_is_number _ Hnum). fold (table_coverage table).
  destruct (Qltb (table_coverage table) 1); simpl; [|eexists; reflexivity].
  rewrite (get_object table "columns" _ Hobj). simpl.
  rewrite (iterate_array _ Harr). simpl. fold (table_columns table).
  rewrite (missing_cols_typed _ Hcols).
  destruct (existsb nameless_gap (table_columns table)); simpl.
  - reflexivity.
  - destruct (map column_name (filter zero_coverage (table_columns table)));
      eexists; reflexivity.
Qed.

Lemma collect_typed (tables : list json) :
  forallb table_typed tables = true ->
  if existsb table_gap tables then collect tables = Raise (KeyError "name")
  else exists items, collect tables = Ret items.
Proof.
  induction tables as [|t rest IH]; simpl; intros H.
  - eexists; reflexivity.
  - apply andb_true_iff in H as [Ht Hrest].
    assert (He := table_entry_typed t Ht). specialize (IH Hrest).
    destruct (table_gap t); simpl.
    + rewrite He. reflexivity.
    + destruct He as [e He]. rewrite He. simpl.
      destruct (existsb table_gap rest).
      * rewrite IH. reflexivity.
      * destruct IH as [items IH]. rewrite IH. eexists; reflexivity.
Qed.

Lemma has_gap_iff (report : json) :
  has_gap report <-> existsb table_gap (report_tables report) = true.
Proof.
  unfold has_gap. rewrite existsb_exists. split.
  - intros [t [Hin [Hlt [col [Hc [Hz Hk]]]]]]. exists t. split; [exact Hin |].
    unfold table_gap. apply andb_true_iff. split; [apply Qltb_lt, Hlt |].
    apply existsb_exists. exists col. split; [exact Hc |].
    unfold nameless_gap. rewrite Hz, Hk. reflexivity.
  - intros [t [Hin Hg]]. exists t. split; [exact Hin |].
    unfold table_gap in Hg. apply andb_true_iff in Hg as [Hlt Hex].
    split; [apply Qltb_lt, Hlt |].
    apply existsb_exists in Hex as [col [Hc Hn]]. exists col.
    unfold nameless_gap in Hn. apply andb_true_iff in Hn as [Hz Hk].
    apply negb_true_iff in Hk. auto.
Qed.

(** X9: for a report whose tables are objects with numeric coverage and
    whose columns are objects, building the deficiency list raises
    [KeyError('name')] exactly when some table with coverage below 1.0 has
    a column with coverage 0 (or none) and no name; otherwise the list is
    built.  A column without name is harmless when it is documented or when
    its table is fully covered. *)
Theorem key_error_iff_gap (report : json) :
  tables_typed report = true ->
  (models_needing_fixes report = Raise (KeyError "name") <-> has_gap report) /\
  (~ has_gap report -> exists items, models_needing_fixes report = Ret items).
Proof.
  unfold tables_typed. intros H.
  apply andb_true_iff in H as [H Htabs].
  apply andb_true_iff in H as [Hobj Harr].
  assert (Hc := collect_typed _ Htabs).
  rewrite has_gap_iff.
  unfold models_needing_fixes.
  rewrite (get_object report "tables" _ Hobj). simpl.
  rewrite (iterate_array _ Harr). simpl. fold (report_tables report).
  destruct (existsb table_gap (report_tables report)).
  - rewrite Hc. simpl. split; [tauto | intros Hn; exfalso; auto].
  - destruct Hc as [items Hc]. rewrite Hc. simpl. split.
    + split; discriminate.
    + intros _. eexists; reflexivity.
Qed.

Lemma key_error_iff_gap_witness :
  (models_needing_fixes nameless_column_report = Raise (KeyError "name") <->
   has_gap nameless_column_report) /\
  (~ has_gap nameless_column_report ->
   exists items, models_needing_fixes nameless_column_report = Ret items).
Proof. apply (key_error_iff_gap nameless_column_report). reflexivity. Defined.

Lemma collect_covered (tables : list json) :
  forallb covered_table tables = true -> collect tables = Ret [].
Proof.
  induction tables as [|t rest IH]; simpl; intros H; [reflexivity |].
  apply andb_true_iff in H as [Ht Hrest].
  unfold covered_table in Ht.
  apply andb_true_iff in Ht as [Ht Hge].
  apply andb_true_iff in Ht as [Hobj Hnum].
  apply negb_true_iff in Hge.
  unfold table_entry.
  rewrite (get_object t "name" _ Hobj). simpl.
  rewrite (get_object t "coverage" _ Hobj). simpl.
  rewrite (as_number_is_number _ Hnum). fold (table_coverage t).
  rewrite Hge. simpl. rewrite (IH Hrest). reflexivity.
Qed.

(** X10: the columns of a table with coverage 1.0 or more are never looked
    at: when every table of a report is such a table the deficiency list is
    empty, whatever the tables hold as columns. *)
Theorem covered_tables_not_inspected (report : json) :
  is_object report = true ->
  is_array (field report "tables" (JArr [])) = true ->
  forallb covered_table (report_tables report) = true ->
  models_needing_fixes report = Ret [].
Proof.
  intros Hobj Harr Hcov. unfold models_needing_fixes.
  rewrite (get_object report "tables" _ Hobj). simpl.
  rewrite (iterate_array _ Harr). simpl. fold (report_tables report).
  rewrite (collect_covered _ Hcov). reflexivity.
Qed.

Lemma covered_tables_not_inspected_witness :
  models_needing_fixes covered_report = Ret [].
Proof. apply (covered_tables_not_inspected covered_report); reflexivity. Defined.

(** ** Thresholds *)

(** X11: raising the threshold never lowers a severity: CRITICAL does not
    depend on the threshold, a WARNING stays a WARNING, and a record that is
    MINOR at the higher threshold is MINOR at the lower one. *)
Theorem severity_monotone (t t' : Q) (i : item) :
  (t <= t')%Q ->
  (severity t i = CRITICAL <-> severity t' i = CRITICAL) /\
  (severity t i = WARNING -> severity t' i = WARNING) /\
  (severity t' i = MINOR -> severity t i = MINOR).
Proof.
  intros Hle.
  assert (H100 : (t * 100 <= t' * 100)%Q).
  { apply Qmult_le_compat_r; [exact Hle | discriminate]. }
  split; [rewrite !severity_critical; tauto |].
  split.
  - rewrite !severity_warning. intros [Hn Hlt].
    split; [exact Hn |]. apply Qlt_le_trans with (t * 100)%Q; assumption.
  - rewrite !severity_minor. intros [Hn Hge].
    split; [exact Hn |]. apply Qle_trans with (t' * 100)%Q; assumption.
Qed.

Lemma severity_monotone_witness :
  (severity 0.5 orders_record = CRITICAL <->
   severity 0.9 orders_record = CRITICAL) /\
  (severity 0.5 orders_record = WARNING ->
   severity 0.9 orders_record = WARNING) /\
  (severity 0.9 orders_record = MINOR -> severity 0.5 orders_record = MINOR).
Proof. apply (severity_monotone 0.5 0.9 orders_record). discriminate. Defined.

Lemma mbind_raise {A B} (m : M A) (k : A -> M B) (tr : trace) (e : exn) :
  snd (m tr) = Raise e -> snd (mbind m k tr) = Raise e.
Proof.
  unfold mbind. destruct (m tr) as [t [a | e']]; simpl; intros H;
    [discriminate | congruence].
Qed.

(** One statement that returns, in a computation that is followed to the
    statement that raises. *)
Ltac run_lift := rewrite (mbind_ret _ _ _ _ _ (emits_lift _ _)); cbv beta.
Ltac run_line := rewrite (mbind_ret _ _ _ _ tt (emits_tell _ _)); cbv beta.

Lemma print_items_overflow (threshold : Q) (items : list item) (tr : trace) :
  forallb item_printable items = false ->
  snd (print_items threshold items tr) = Raise OverflowError.
Proof.
  revert tr. induction items as [|i rest IH]; simpl; intros tr H.
  - discriminate.
  - unfold log_and_print.
    destruct (item_printable i) eqn:Hi; simpl in H.
    + rewrite (fmt_fixed_printable i Hi). run_lift. do 2 run_line.
      rewrite (mbind_ret _ _ _ _ tt (print_columns_emits _ _)).
      apply IH, H.
    + rewrite (fmt_fixed_unprintable i Hi). reflexivity.
Qed.

(** A number that cannot be formatted stops the analysis, whatever the
    threshold is. *)
Lemma analyze_overflow (report : json) (threshold : Q) (tr : trace) :
  truthy report = true ->
  report_conforms report = true ->
  report_printable report = false ->
  snd (analyze_coverage_data report threshold tr) = Raise OverflowError.
Proof.
  intros Ht Hc Hp. unfold report_conforms in Hc.
  apply andb_true_iff in Hc as [Htabs Hnum].
  assert (Hobj : is_object report = true).
  { unfold tables_conform in Htabs.
    apply andb_true_iff in Htabs as [H _].
    apply andb_true_iff in H as [H _]. exact H. }
  unfold analyze_coverage_data, log_and_print. rewrite Ht.
  change (negb true) with false. cbv iota.
  rewrite !(get_object report _ _ Hobj).
  do 3 run_lift. run_line.
  unfold report_printable in Hp.
  destruct (printable (field report "coverage" (JInt 0))) eqn:Hagg;
    simpl in Hp.
  - rewrite (fmt_percent_number _ Hnum Hagg). run_lift. run_line.
    rewrite (models_needing_fixes_conform _ Htabs). run_lift.
    apply mbind_raise.
    rewrite (forallb_perm _ _ _ (sort_by_coverage_perm _)) in Hp.
    destruct (sort_by_coverage (deficiencies report)) as [|i rest];
      [discriminate |].
    run_line. apply print_items_overflow, Hp.
  - rewrite (fmt_percent_overflow _ Hnum Hagg). reflexivity.
Qed.

Lemma returned_code (report : json) (threshold : Q) (code : Z) :
  truthy report = true ->
  report_conforms report = true ->
  returns (analyze_coverage_data report threshold) code ->
  report_printable report = true /\ code = verdict report threshold.
Proof.
  intros Ht Hc Hr.
  destruct (Hr []) as [o1 H1].
  destruct (report_printable report) eqn:Hp.
  - split; [reflexivity |].
    destruct (analyze_conform report threshold Ht Hc Hp []) as [o2 H2].
    congruence.
  - assert (Ho := analyze_overflow report threshold [] Ht Hc Hp).
    rewrite H1 in Ho. discriminate.
Qed.

(** X12: a report that fails at a threshold fails at every higher one, and
    a report that passes at a threshold passes at every lower one. *)
Theorem verdict_monotone (report : json) (t t' : Q) :
  truthy report = true ->
  report_conforms report = true ->
  (t <= t')%Q ->
  (returns (analyze_coverage_data report t) 1%Z ->
   returns (analyze_coverage_data report t') 1%Z) /\
  (returns (analyze_coverage_data report t') 0%Z ->
   returns (analyze_coverage_data report t) 0%Z).
Proof.
  intros Ht Hc Hle. split; intros Hr.
  - apply (returned_code _ _ _ Ht Hc) in Hr as [Hp Hr]. symmetry in Hr.
    apply verdict_one in Hr.
    assert (E : verdict report t' = 1%Z).
    { apply verdict_one. apply Qlt_le_trans with t; assumption. }
    rewrite <- E. apply analyze_conform; assumption.
  - apply (returned_code _ _ _ Ht Hc) in Hr as [Hp Hr]. symmetry in Hr.
    apply verdict_zero in Hr.
    assert (E : verdict report t = 0%Z).
    { apply verdict_zero. intros Hlt. apply Hr.
      apply Qlt_le_trans with t; assumption. }
    rewrite <- E. apply analyze_conform; assumption.
Qed.

Lemma verdict_monotone_witness :
  (returns (analyze_coverage_data orders_report 0.8) 1%Z ->
   returns (analyze_coverage_data orders_report 0.9) 1%Z) /\
  (returns (analyze_coverage_data orders_report 0.9) 0%Z ->
   returns (analyze_coverage_data orders_report 0.8) 0%Z).
Proof.
  apply (verdict_monotone orders_report 0.8 0.9);
    [reflexivity | reflexivity | discriminate].
Defined.

(** ** The order of the deficiency list *)

(** X13: the first record of the deficiency list is a worst one: no
    deficient table of the report has a lower coverage percentage. *)
Theorem worst_first (report : json) (i : item) (rest : list item) :
  tables_conform report = true ->
  models_needing_fixes report = Ret (i :: rest) ->
  forall table,
    In table (report_tables report) ->
    is_deficiency table = true ->
    (coverage i <= table_coverage table * 100)%Q.
Proof.
  intros Hc Hm t Hin Hd.
  rewrite (models_needing_fixes_conform report Hc) in Hm.
  injection Hm as Hm.
  assert (Hs := sort_by_coverage_strongly_sorted (deficiencies report)).
  assert (Hi : In (deficiency_record t) (sort_by_coverage (deficiencies report))).
  { apply (Permutation_in _ (sort_by_coverage_perm _)).
    apply in_deficiencies. exists t. auto. }
  rewrite Hm in Hs, Hi. destruct Hi as [E | Hi].
  - subst i. apply Qle_refl.
  - apply StronglySorted_inv in Hs as [_ Hall].
    rewrite Forall_forall in Hall. exact (Hall _ Hi).
Qed.

Lemma worst_first_witness :
  In tied_table_b (report_tables tied_report) /\
  is_deficiency tied_table_b = true /\
  (0.25 * 100 <= table_coverage tied_table_b * 100)%Q.
Proof.
  assert (Hin : In tied_table_b (report_tables tied_report))
    by (left; reflexivity).
  split; [exact Hin |]. split; [reflexivity |].
  apply (worst_first tied_report
           {| model := JStr "c"; coverage := 0.25 * 100; whole := false;
              missing_columns := [JStr "z"] |}
           [{| model := JStr "b"; coverage := 0.5 * 100; whole := false;
               missing_columns := [JStr "x"] |};
            {| model := JStr "a"; coverage := 0.5 * 100; whole := false;
               missing_columns := [JStr "y"] |}]);
    [reflexivity | reflexivity | exact Hin | reflexivity].
Defined.

(** X14: the two properties of the order determine the list: a list that is
    sorted by coverage percentage and in which the records of every
    percentage read as in the report is the deficiency list. *)
Theorem deficiency_list_determined (report : json) (l : list item) :
  tables_conform report = true ->
  StronglySorted coverage_le l ->
  (forall q,
      filter (same_coverage q) l =
      filter (same_coverage q) (deficiencies report)) ->
  models_needing_fixes report = Ret l.
Proof.
  intros Hc Hs Hf. rewrite (models_needing_fixes_conform report Hc).
  f_equal. symmetry. apply sort_by_coverage_unique; assumption.
Qed.

Lemma deficiency_list_determined_witness :
  models_needing_fixes tied_report = Ret tied_records.
Proof.
  apply (deficiency_list_determined tied_report tied_records).
  - reflexivity.
  - unfold tied_records, coverage_le.
    repeat constructor; simpl; discriminate.
  - intros q.
    assert (Hd : deficiencies tied_report =
                 [{| model := JStr "b"; coverage := 0.5 * 100; whole := false;
                     missing_columns := [JStr "x"] |};
                  {| model := JStr "a"; coverage := 0.5 * 100; whole := false;
                     missing_columns := [JStr "y"] |};
                  {| model := JStr "c"; coverage := 0.25 * 100; whole := false;
                     missing_columns := [JStr "z"] |}]) by reflexivity.
    rewrite Hd. unfold tied_records, same_coverage. simpl.
    destruct (Qeq_bool (0.25 * 100) q) eqn:E1,
             (Qeq_bool (0.5 * 100) q) eqn:E2; try reflexivity.
    exfalso. apply Qeq_bool_iff in E1, E2.
    rewrite <- E2 in E1. discriminate E1.
Defined.

(** ** What the analysis can do *)

Lemma oyields_bind {A B} (o : outcome A) (k : A -> outcome B)
    (P : B -> Prop) (Q : exn -> Prop) :
  oyields o anything Q -> (forall a, oyields (k a) P Q) ->
  oyields (obind o k) P Q.
Proof. destruct o; simpl; intros Ho Hk; [apply Hk | exact Ho]. Qed.

Lemma get_no_exit (v : json) (k : string) (d : json) :
  oyields (get v k d) anything not_exit.
Proof. destruct v; exact I. Qed.

Lemma getitem_no_exit (v : json) (k : string) :
  oyields (getitem v k) anything not_exit.
Proof. destruct v; try exact I. simpl. destruct (lookup k items); exact I. Qed.

Lemma iterate_no_exit (v : json) : oyields (iterate v) anything not_exit.
Proof. destruct v; exact I. Qed.

Lemma fmt_fixed_no_exit (whole : bool) (q : Q) :
  oyields (fmt_fixed whole q) anything not_exit.
Proof. unfold fmt_fixed. destruct (whole && negb (fits q)); exact I. Qed.

Lemma fmt_percent_no_exit (v : json) :
  oyields (fmt_percent v) anything not_exit.
Proof.
  unfold fmt_percent. destruct (as_number v).
  - apply fmt_fixed_no_exit.
  - destruct v; exact I.
Qed.

Lemma py_lt_no_exit (v : json) (q : Q) :
  oyields (py_lt v q) anything not_exit.
Proof. unfold py_lt. destruct (as_number v); exact I. Qed.

Lemma missing_cols_no_exit (cols : list json) :
  oyields (missing_cols_of cols) anything not_exit.
Proof.
  induction cols as [|col rest IH]; simpl; [exact I |].
  apply oyields_bind; [apply get_no_exit | intros c].
  destruct (py_eq0 c); [|exact IH].
  apply oyields_bind; [apply getitem_no_exit | intros n].
  apply oyields_bind; [exact IH | intros ns; exact I].
Qed.

Lemma table_entry_no_exit (table : json) :
  oyields (table_entry table) anything not_exit.
Proof.
  unfold table_entry.
  apply oyields_bind; [apply get_no_exit | intros name].
  apply oyields_bind; [apply get_no_exit | intros pct].
  destruct (as_number pct) as [q |]; [|exact I].
  destruct (Qltb q 1); [|exact I].
  apply oyields_bind; [apply get_no_exit | intros cols].
  apply oyields_bind; [apply iterate_no_exit | intros l].
  apply oyields_bind; [apply missing_cols_no_exit | intros m].
  destruct m; exact I.
Qed.

Lemma collect_no_exit (tables : list json) :
  oyields (collect tables) anything not_exit.
Proof.
  induction tables as [|t rest IH]; simpl; [exact I |].
  apply oyields_bind; [apply table_entry_no_exit | intros e].
  apply oyields_bind; [exact IH | intros es; exact I].
Qed.

Lemma models_needing_fixes_no_exit (report : json) :
  oyields (models_needing_fixes report) anything not_exit.
Proof.
  unfold models_needing_fixes.
  apply oyields_bind; [apply get_no_exit | intros tables].
  apply oyields_bind; [apply iterate_no_exit | intros l].
  apply oyields_bind; [apply collect_no_exit | intros found; exact I].
Qed.

Lemma logs_only_bind {A B} (m : M A) (k : A -> M B)
    (P : B -> Prop) (Q : exn -> Prop) :
  logs_only m anything Q -> (forall a, logs_only (k a) P Q) ->
  logs_only (mbind m k) P Q.
Proof.
  intros Hm Hk tr. destruct (Hm tr) as [o1 [H1 [E1 Y1]]].
  unfold mbind. destruct (m tr) as [t1 [a | e]]; simpl in *; subst t1.
  - destruct (Hk a (tr ++ o1)) as [o2 [H2 [E2 Y2]]].
    exists (o1 ++ o2). rewrite H2, app_assoc, forallb_app, E1, E2. auto.
  - exists o1. auto.
Qed.

Lemma logs_only_lift {A} (o : outcome A) (P : A -> Prop) (Q : exn -> Prop) :
  oyields o P Q -> logs_only (lift o) P Q.
Proof.
  intros H tr. exists []. unfold lift. simpl. rewrite app_nil_r. auto.
Qed.

Lemma logs_only_mret {A} (a : A) (P : A -> Prop) (Q : exn -> Prop) :
  P a -> logs_only (mret a) P Q.
Proof.
  intros H tr. exists []. unfold mret. simpl. rewrite app_nil_r. auto.
Qed.

Lemma logs_only_log (message : fstring) (level : string) (c : option color)
    (Q : exn -> Prop) :
  logs_only (log_and_print message level c) anything Q.
Proof.
  intros tr. exists [Emit level message c]. repeat split.
Qed.

Lemma print_columns_logs_only (cols : list json) (Q : exn -> Prop) :
  logs_only (print_columns cols) anything Q.
Proof.
  induction cols as [|col rest IH]; simpl.
  - apply logs_only_mret. exact I.
  - apply logs_only_bind; [apply logs_only_log | intros _; exact IH].
Qed.

Lemma print_items_logs_only (threshold : Q) (items : list item) :
  logs_only (print_items threshold items) anything not_exit.
Proof.
  induction items as [|i rest IH]; simpl.
  - apply logs_only_mret. exact I.
  - apply logs_only_bind;
      [apply logs_only_lift, fmt_fixed_no_exit | intros pct].
    apply logs_only_bind; [apply logs_only_log | intros _].
    apply logs_only_bind; [apply logs_only_log | intros _].
    apply logs_only_bind; [apply print_columns_logs_only | intros _].
    exact IH.
Qed.

(** For every value and every threshold the analysis only writes lines;
    when it returns, the code is 0 or 1; when it raises, the exception is
    not a [SystemExit]. *)
Lemma analyze_logs_only (coverage_data : json) (threshold : Q) :
  logs_only (analyze_coverage_data coverage_data threshold)
    zero_or_one not_exit.
Proof.
  unfold analyze_coverage_data. destruct (truthy coverage_data); simpl.
  - do 3 (apply logs_only_bind;
          [apply logs_only_lift, get_no_exit | intros ?]).
    apply logs_only_bind; [apply logs_only_log | intros _].
    apply logs_only_bind;
      [apply logs_only_lift, fmt_percent_no_exit | intros pct].
    apply logs_only_bind; [apply logs_only_log | intros _].
    apply logs_only_bind;
      [apply logs_only_lift, models_needing_fixes_no_exit | intros items].
    apply logs_only_bind.
    { destruct items.
      - apply logs_only_mret. exact I.
      - apply logs_only_bind; [apply logs_only_log | intros _].
        apply print_items_logs_only. }
    intros _.
    apply logs_only_bind; [apply logs_only_lift, py_lt_no_exit | intros b].
    destruct b;
      (apply logs_only_bind; [apply logs_only_log | intros _]);
      apply logs_only_mret; [right | left]; reflexivity.
  - apply logs_only_bind; [apply logs_only_log | intros _].
    apply logs_only_mret. right. reflexivity.
Qed.

(** X15: whatever value it is given, [analyze_coverage_data] only appends
    lines to the log (it runs no command and does not clear the log), it
    returns no other code than 0 and 1, and it never exits the process
    itself. *)
Theorem analyze_is_contained (coverage_data : json) (threshold : Q)
    (tr : trace) :
  exists out,
    fst (analyze_coverage_data coverage_data threshold tr) = tr ++ out /\
    forallb is_emit out = true /\
    (forall code,
        snd (analyze_coverage_data coverage_data threshold tr) = Ret code ->
        code = 0%Z \/ code = 1%Z) /\
    (forall code,
        snd (analyze_coverage_data coverage_data threshold tr) <>
        Raise (SystemExit code)).
Proof.
  destruct (analyze_logs_only coverage_data threshold tr) as [out [H [E Y]]].
  exists out. split; [exact H |]. split; [exact E |].
  destruct (snd (analyze_coverage_data coverage_data threshold tr)) as [c | e];
    simpl in Y.
  - split; [intros code Hc; injection Hc as Hc; subst code; exact Y |].
    intros code; discriminate.
  - split; [intros code; discriminate |].
    intros code Hc. injection Hc as Hc. subst e. exact Y.
Qed.

Lemma analyze_is_contained_witness :
  exists out,
    fst (analyze_coverage_data nameless_column_report 0.9 []) = [] ++ out /\
    forallb is_emit out = true /\
    (forall code,
        snd (analyze_coverage_data nameless_column_report 0.9 []) = Ret code ->
        code = 0%Z \/ code = 1%Z) /\
    (forall code,
        snd (analyze_coverage_data nameless_column_report 0.9 []) <>
        Raise (SystemExit code)).
Proof. apply (analyze_is_contained nameless_column_report 0.9 []). Defined.

(** ** The program as a whole *)

Lemma listed_paths_nil (r : find_result) :
  listed_paths r = [] <-> r = Completed "" \/ exists e, r = CalledProcessError e.
Proof.
  destruct r as [stdout | e]; simpl.
  - destruct (stdout =? "") eqn:E.
    + apply String.eqb_eq in E. subst stdout. split; auto.
    + split.
      * intros H. exfalso. exact (split_lines_not_nil _ H).
      * intros [H | [e H]]; [|discriminate].
        injection H as H. subst stdout. discriminate.
  - split; [intros _; right; exists e; reflexivity | reflexivity].
Qed.

Lemma sorted_nil (l : list string) : sorted l = [] <-> l = [].
Proof.
  split; intros H.
  - apply Permutation_nil. rewrite <- H. apply Permutation_sym, sorted_perm.
  - subst l. reflexivity.
Qed.

(** Without paths: the two ways of the query to list nothing. *)
Lemma script_without_paths (threshold : Q) (r : find_result)
    (run : coverage_run) :
  listed_paths r = [] ->
  exists out,
    script threshold r run = ([Truncate] ++ out, 0%Z) /\
    forallb is_emit out = true.
Proof.
  intros H. apply listed_paths_nil in H as [H | [e H]]; subst r.
  - eexists. split; reflexivity.
  - eexists. split; reflexivity.
Qed.

(** With paths: the command is run with the filters of the paths, and the
    report it leaves is analysed; the code of the analysis goes to
    [sys.exit]. *)
Lemma main_with_paths (threshold : Q) (r : find_result) (run : coverage_run) :
  listed_paths r <> [] ->
  main threshold r run [] =
    mbind (analyze_coverage_data (loaded_report run) threshold) sys_exit
      ([Truncate] ++ run_lines (discovered_filters r) threshold run).
Proof.
  intros Hp. unfold main.
  rewrite (mbind_ret _ _ [] [Truncate] tt eq_refl).
  assert (Hf : find_model_paths r [Truncate] =
               ([Truncate], Ret (sorted (listed_paths r)))).
  { destruct r as [stdout | e]; simpl in *; [|contradiction].
    unfold mret. destruct (stdout =? ""); reflexivity. }
  rewrite (mbind_ret _ _ _ _ _ Hf).
  unfold discovered_filters.
  destruct (sorted (listed_paths r)) as [|p ps] eqn:E.
  - exfalso. apply Hp, sorted_nil, E.
  - rewrite (mbind_ret _ _ _ _ _
               (run_dbt_coverage_emits (create_path_filters (p :: ps))
                  threshold run [Truncate])).
    reflexivity.
Qed.

Lemma script_with_paths (threshold : Q) (r : find_result)
    (run : coverage_run) :
  listed_paths r <> [] ->
  exists out status,
    script threshold r run =
      ([Truncate] ++ run_lines (discovered_filters r) threshold run ++ out,
       status) /\
    forallb is_emit out = true /\
    zero_or_one status.
Proof.
  intros Hp. unfold script. rewrite (main_with_paths threshold r run Hp).
  destruct (analyze_logs_only (loaded_report run) threshold
              ([Truncate] ++ run_lines (discovered_filters r) threshold run))
    as [out [H [E Y]]].
  unfold mbind.
  destruct (analyze_coverage_data (loaded_report run) threshold
              ([Truncate] ++ run_lines (discovered_filters r) threshold run))
    as [t [c | e]]; simpl in *; subst t; exists out.
  - exists c. rewrite <- app_assoc. auto.
  - exists 1%Z. rewrite <- app_assoc.
    destruct e; simpl in Y; try contradiction;
      (split; [reflexivity | split; [exact E | right; reflexivity]]).
Qed.

(** X16: the exit status of the program is 0 or 1 for every threshold,
    every outcome of the query and every outcome of the coverage tool, also
    when the analysis raises. *)
Theorem exit_status_zero_or_one (threshold : Q) (r : find_result)
    (run : coverage_run) :
  snd (script threshold r run) = 0%Z \/ snd (script threshold r run) = 1%Z.
Proof.
  destruct (listed_paths r) as [|p ps] eqn:E.
  - destruct (script_without_paths threshold r run E) as [out [H _]].
    rewrite H. left. reflexivity.
  - assert (Hp : listed_paths r <> []) by (rewrite E; discriminate).
    destruct (script_with_paths threshold r run Hp) as [out [st [H [_ Hz]]]].
    rewrite H. exact Hz.
Qed.

(** X17: every run clears the log first and never again, and runs the
    coverage tool exactly once when the query lists a path, with the
    filters built from the sorted paths and the threshold of the verdict,
    and not at all when it lists none. *)
Theorem effects_of_a_run (threshold : Q) (r : find_result)
    (run : coverage_run) :
  (exists rest,
      fst (script threshold r run) = Truncate :: rest /\
      filter is_truncate rest = []) /\
  filter is_exec (fst (script threshold r run)) =
    match listed_paths r with
    | [] => []
    | _ => [Exec (coverage_command
                    (create_path_filters (sorted (listed_paths r)))
                    threshold)]
    end.
Proof.
  assert (Hemit : forall out,
             forallb is_emit out = true ->
             filter is_truncate out = [] /\ filter is_exec out = []).
  { induction out as [|e out IH]; simpl; [auto |].
    intros H. apply andb_true_iff in H as [He Ho].
    destruct e; try discriminate. simpl. apply IH, Ho. }
  destruct (listed_paths r) as [|p ps] eqn:E.
  - destruct (script_without_paths threshold r run E) as [out [H Ho]].
    rewrite H. simpl. destruct (Hemit out Ho) as [Ht Hx]. split.
    + exists out. auto.
    + exact Hx.
  - assert (Hp : listed_paths r <> []) by (rewrite E; discriminate).
    destruct (script_with_paths threshold r run Hp) as [out [st [H [Ho _]]]].
    assert (Hfst : fst (script threshold r run) =
                   [Truncate] ++
                   run_lines (discovered_filters r) threshold run ++ out)
      by (rewrite H; reflexivity).
    rewrite Hfst. destruct (Hemit out Ho) as [Ht Hx].
    unfold discovered_filters. rewrite E. split.
    + exists (run_lines (create_path_filters (sorted (p :: ps))) threshold run
              ++ out).
      split; [reflexivity |].
      rewrite filter_app, Ht, app_nil_r.
      unfold run_lines. destruct (run_failed run), (run_report run);
        reflexivity.
    + rewrite !filter_app, Hx, app_nil_r.
      change (filter is_exec [Truncate]) with (@nil effect).
      rewrite app_nil_l. apply run_lines_one_command.
Qed.

(** X18: when the query lists a path and the coverage tool leaves no usable
    report (no file, an unreadable file, or a falsy value such as [{}]), the
    run ends with the line that no coverage data is available and exits
    with status 1. *)
Theorem no_report_exit_status (threshold : Q) (r : find_result)
    (run : coverage_run) :
  listed_paths r <> [] ->
  truthy (loaded_report run) = false ->
  script threshold r run =
    ([Truncate] ++ run_lines (discovered_filters r) threshold run ++
     [no_data_line],
     1%Z).
Proof.
  intros Hp Hf. unfold script. rewrite (main_with_paths threshold r run Hp).
  unfold mbind. rewrite (analyze_falsy _ threshold _ Hf).
  rewrite <- app_assoc. reflexivity.
Qed.

Lemma no_report_exit_status_witness :
  script 0.9 (Completed (unlines three_models)) failed_run =
    ([Truncate] ++
     run_lines (discovered_filters (Completed (unlines three_models))) 0.9
       failed_run ++
     [no_data_line],
     1%Z).
Proof.
  apply (no_report_exit_status 0.9 (Completed (unlines three_models))
           failed_run);
    [discriminate | reflexivity].
Defined.

(** X19: when the query lists a path and the tool leaves a report that is
    not empty, conforms to the schema and holds no number that cannot be
    formatted (no [int] beyond the binary64 range as aggregate coverage or
    coverage of a deficiency), the run clears the log, runs the tool, writes
    the lines of the analysis and exits with the code of the verdict, also
    when the tool itself exited with an error. *)
Theorem analysed_run (threshold : Q) (r : find_result) (run : coverage_run)
    (report : json) :
  listed_paths r <> [] ->
  run_report run = Loaded report ->
  truthy report = true ->
  report_conforms report = true ->
  report_printable report = true ->
  script threshold r run =
    ([Truncate] ++ run_lines (discovered_filters r) threshold run ++
     report_lines report threshold (sort_by_coverage (deficiencies report)),
     verdict report threshold).
Proof.
  intros Hp Hr Ht Hc Hpr. unfold script.
  rewrite (main_with_paths threshold r run Hp).
  assert (Hl : loaded_report run = report).
  { unfold loaded_report. rewrite Hr. reflexivity. }
  rewrite Hl.
  rewrite (mbind_ret _ _ _ _ _
             (analyze_emits report threshold Ht Hc Hpr _)).
  rewrite <- app_assoc. reflexivity.
Qed.

Lemma analysed_run_witness :
  script 0.9 (Completed (unlines three_models)) orders_run =
    ([Truncate] ++
     run_lines (discovered_filters (Completed (unlines three_models))) 0.9
       orders_run ++
     report_lines orders_report 0.9
       (sort_by_coverage (deficiencies orders_report)),
     verdict orders_report 0.9).
Proof.
  apply (analysed_run 0.9 (Completed (unlines three_models)) orders_run
           orders_report);
    [discriminate | reflexivity | reflexivity | reflexivity | reflexivity].
Defined.

(** ** An uncaught error of the analysis *)

Lemma models_needing_fixes_gap (report : json) :
  tables_typed report = true ->
  has_gap report ->
  models_needing_fixes report = Raise (KeyError "name").
Proof.
  unfold tables_typed. intros H Hg.
  apply andb_true_iff in H as [H Htabs].
  apply andb_true_iff in H as [Hobj Harr].
  assert (Hc := collect_typed _ Htabs).
  apply has_gap_iff in Hg. rewrite Hg in Hc.
  unfold models_needing_fixes.
  rewrite (get_object report "tables" _ Hobj). simpl.
  rewrite (iterate_array _ Harr). simpl. fold (report_tables report).
  rewrite Hc. reflexivity.
Qed.

Lemma analyze_gap (report : json) (threshold : Q) (tr : trace) :
  truthy report = true ->
  is_number (field report "coverage" (JInt 0)) = true ->
  printable (field report "coverage" (JInt 0)) = true ->
  tables_typed report = true ->
  has_gap report ->
  analyze_coverage_data report threshold tr =
    (tr ++ summary_lines report, Raise (KeyError "name")).
Proof.
  intros Ht Hnum Hpr Hty Hg.
  assert (Hobj : is_object report = true).
  { unfold tables_typed in Hty.
    apply andb_true_iff in Hty as [H _].
    apply andb_true_iff in H as [H _]. exact H. }
  unfold analyze_coverage_data. rewrite Ht. simpl.
  rewrite !(get_object report _ _ Hobj).
  unfold mbind, lift, log_and_print, tell, summary_lines. cbv beta iota.
  rewrite (fmt_percent_number _ Hnum Hpr). cbv beta iota.
  rewrite (models_needing_fixes_gap report Hty Hg).
  fold (aggregate_coverage report).
  rewrite <- app_assoc. reflexivity.
Qed.

(** X20: when the report that the tool leaves has, in a table with coverage
    below 1.0, a column with coverage 0 and no name, the program stops after
    the summary with an uncaught [KeyError] and exits with status 1,
    whatever the threshold and the aggregate coverage are, as long as this
    is a number that can be formatted (not an [int] beyond the binary64
    range): no deficiency and no verdict is written. *)
Theorem nameless_column_exit_status (threshold : Q) (r : find_result)
    (run : coverage_run) (report : json) :
  listed_paths r <> [] ->
  run_report run = Loaded report ->
  truthy report = true ->
  is_number (field report "coverage" (JInt 0)) = true ->
  printable (field report "coverage" (JInt 0)) = true ->
  tables_typed report = true ->
  has_gap report ->
  script threshold r run =
    ([Truncate] ++ run_lines (discovered_filters r) threshold run ++
     summary_lines report,
     1%Z).
Proof.
  intros Hp Hr Ht Hnum Hpr Hty Hg. unfold script.
  rewrite (main_with_paths threshold r run Hp).
  assert (Hl : loaded_report run = report).
  { unfold loaded_report. rewrite Hr. reflexivity. }
  rewrite Hl. unfold mbind.
  rewrite (analyze_gap report threshold _ Ht Hnum Hpr Hty Hg).
  rewrite <- app_assoc. reflexivity.
Qed.

Lemma nameless_column_exit_status_witness :
  script 0 (Completed (unlines three_models)) nameless_run =
    ([Truncate] ++
     run_lines (discovered_filters (Completed (unlines three_models))) 0
       nameless_run ++
     summary_lines nameless_column_report,
     1%Z).
Proof.
  apply (nameless_column_exit_status 0 (Completed (unlines three_models))
           nameless_run nameless_column_report);
    [discriminate | reflexivity | reflexivity | reflexivity | reflexivity
    | reflexivity |].
  apply has_gap_iff. reflexivity.
Defined.

(** ** A number that cannot be formatted *)

(** X21: for a report that is not empty and conforms to the schema, the
    analysis runs to the verdict when no number it formats is an [int]
    beyond the binary64 range (the aggregate coverage times 100, the
    percentage of a deficiency), and otherwise raises [OverflowError], at
    every threshold: the formatting with [.1f] of lines 87 and 124 converts
    an [int] to a [float]. *)
Theorem analysis_returns_iff_printable (report : json) (threshold : Q) :
  truthy report = true ->
  report_conforms report = true ->
  (report_printable report = true ->
   returns (analyze_coverage_data report threshold)
     (verdict report threshold)) /\
  (report_printable report = false ->
   forall tr,
     snd (analyze_coverage_data report threshold tr) = Raise OverflowError).
Proof.
  intros Ht Hc. split; intros Hp.
  - apply analyze_conform; assumption.
  - intros tr. apply analyze_overflow; assumption.
Qed.

Lemma analysis_returns_iff_printable_witness :
  analyze_coverage_data huge_report 0.9 [] =
    ([Emit "STATUS" [Lit (String LF "Documentation Coverage Summary")]
        (Some BLUE)],
     Raise OverflowError).
Proof.
  assert (H : snd (analyze_coverage_data huge_report 0.9 []) =
              Raise OverflowError).
  { apply (analysis_returns_iff_printable huge_report 0.9);
      reflexivity. }
  assert (Hf : fst (analyze_coverage_data huge_report 0.9 []) =
               [Emit "STATUS"
                  [Lit (String LF "Documentation Coverage Summary")]
                  (Some BLUE)]) by reflexivity.
  destruct (analyze_coverage_data huge_report 0.9 []) as [t o].
  simpl in H, Hf. subst t o. reflexivity.
Defined.
